(** * Binary adder RNN notebook: bit codec, sample generator, unrolled
      recurrent cell and interactive calculator.

    Shallow embedding of [binary-adder-rnn-notebook.ipynb].  NumPy arrays of
    unsigned integers are lists of [Z] together with the [dtype] that fixes
    the element width; bit arrays are lists of [Z] holding 0 or 1 (the
    [uint8] values [np.unpackbits] produces).  Operations that raise in
    Python return [option] or an explicit exception value. *)

From Stdlib Require Import String Ascii ZArith QArith List Lia Bool.
Import ListNotations.
Local Open Scope Z_scope.

(** ** Configuration constants (first code cell) *)

Inductive dtype := uint8 | uint16 | uint32.

Definition max_uint32 : Z := 2 ^ 32 - 1.
Definition max_uint16 : Z := 2 ^ 16 - 1.
Definition max_uint8 : Z := 2 ^ 8 - 1.

(** [self.bitwidth] as set by [SampleData.__init__]. *)
Definition bitwidth (dt : dtype) : nat :=
  match dt with uint8 => 8 | uint16 => 16 | uint32 => 32 end%nat.

(** Bytes per element of the NumPy dtype. *)
Definition itemsize (dt : dtype) : nat :=
  match dt with uint8 => 1 | uint16 => 2 | uint32 => 4 end%nat.

(** Values an array of the dtype can hold. *)
Definition in_range (dt : dtype) (v : Z) : Prop :=
  0 <= v < 2 ^ Z.of_nat (bitwidth dt).

Definition is_bit (b : Z) : Prop := b = 0 \/ b = 1.

(** ** The NumPy primitives the notebook calls *)

Module Numpy.

(** [x.astype(dt)] on integers: reduction modulo the element width. *)
Definition astype (dt : dtype) (x : list Z) : list Z :=
  map (fun v => v mod 2 ^ Z.of_nat (bitwidth dt)) x.

(** The [n] bytes of one element, most significant byte first
    ([newbyteorder("B")] followed by [view(np.uint8)]). *)
Fixpoint be_bytes (n : nat) (v : Z) : list Z :=
  match n with
  | O => []
  | S k => Z.land (Z.shiftr v (8 * Z.of_nat k)) 255 :: be_bytes k v
  end.

Definition view_uint8_be (dt : dtype) (x : list Z) : list Z :=
  flat_map (be_bytes (itemsize dt)) x.

(** [np.unpackbits]: every byte becomes eight bits, most significant
    bit first. *)
Definition unpack_byte (b : Z) : list Z :=
  map (fun i => Z.b2z (Z.testbit b i)) [7; 6; 5; 4; 3; 2; 1; 0].

Definition unpackbits (bs : list Z) : list Z := flat_map unpack_byte bs.

(** [np.packbits] reads any non-zero entry as a set bit. *)
Definition bit_of (z : Z) : Z := if z =? 0 then 0 else 1.

Definition pack_byte (bits : list Z) : Z :=
  fold_left (fun acc b => 2 * acc + bit_of b) bits 0.

(** [np.packbits]: groups of eight bits, most significant first; a
    trailing incomplete group is padded with zero bits. *)
Fixpoint packbits (l : list Z) : list Z :=
  match l with
  | [] => []
  | b7 :: b6 :: b5 :: b4 :: b3 :: b2 :: b1 :: b0 :: tl =>
      pack_byte [b7; b6; b5; b4; b3; b2; b1; b0] :: packbits tl
  | _ => [pack_byte (firstn 8 (l ++ repeat 0 7))]
  end.

(** Rows of a C-ordered two-dimensional reshape. *)
Fixpoint rows_of {A} (rows cols : nat) (l : list A) : list (list A) :=
  match rows with
  | O => []
  | S r => firstn cols l :: rows_of r cols (skipn cols l)
  end.

(** [np.reshape(l, [rows, cols])]: raises [ValueError] ([None]) when the
    sizes disagree. *)
Definition reshape2 {A} (l : list A) (rows cols : nat)
  : option (list (list A)) :=
  if (length l =? rows * cols)%nat then Some (rows_of rows cols l)
  else None.

(** [np.reshape(l, [n])]. *)
Definition reshape1 {A} (l : list A) (n : nat) : option (list A) :=
  if (length l =? n)%nat then Some l else None.

(** [multiplier * row] followed by [np.add.reduce(..., axis=1)]. *)
Fixpoint weighted (multiplier row : list Z) : Z :=
  match multiplier, row with
  | m :: ms, r :: rs => m * r + weighted ms rs
  | _, _ => 0
  end.

End Numpy.

(** ** Bit codec (third code cell) *)

(** [arr2inbits(x)] for an array [x] of dtype [dt]. *)
Definition arr2inbits (dt : dtype) (x : list Z) : list Z :=
  let x_little_end_uint8 := Numpy.view_uint8_be dt x in
  let x_bits := Numpy.unpackbits x_little_end_uint8 in
  let x_bits_flipped := rev x_bits in
  x_bits_flipped.

(** [bits2arr(x, dtype)]; [None] is the [ValueError] of [np.reshape]. *)
Definition bits2arr (x : list Z) (dt : dtype) : option (list Z) :=
  let x_bits_flipped := rev x in
  let x_int := Numpy.packbits x_bits_flipped in
  match dt with
  | uint8 => Some x_int
  | uint16 =>
      match Numpy.reshape2 x_int (length x_int / 2) 2 with
      | Some x_grouped_bytes =>
          Some (map (Numpy.weighted [2 ^ 8; 1]) x_grouped_bytes)
      | None => None
      end
  | uint32 =>
      match Numpy.reshape2 x_int (length x_int / 4) 4 with
      | Some x_grouped_bytes =>
          Some (map (Numpy.weighted [2 ^ 24; 2 ^ 16; 2 ^ 8; 1])
                  x_grouped_bytes)
      | None => None
      end
  end.

(** ** Errors and Python helpers *)

Inductive exn := ValueError | IndexError | ZeroDivisionError | EOFError.

Inductive result (A : Type) := Ok (a : A) | Raise (e : exn).
Arguments Ok {A} a.
Arguments Raise {A} e.

Definition bind {A B} (r : result A) (k : A -> result B) : result B :=
  match r with Ok a => k a | Raise e => Raise e end.

Notation "x <- r ;; k" := (bind r (fun x => k))
  (at level 61, r at next level, right associativity).

Definition of_option {A} (e : exn) (o : option A) : result A :=
  match o with Some a => Ok a | None => Raise e end.

Module Py.

(** [l[:k]] with Python's treatment of negative and oversized bounds. *)
Definition slice_to {A} (k : Z) (l : list A) : list A :=
  let n := Z.of_nat (length l) in
  let stop := if k <? 0 then Z.max 0 (k + n) else Z.min k n in
  firstn (Z.to_nat stop) l.

(** [l[k:]]. *)
Definition slice_from {A} (k : Z) (l : list A) : list A :=
  let n := Z.of_nat (length l) in
  let start := if k <? 0 then Z.max 0 (k + n) else Z.min k n in
  skipn (Z.to_nat start) l.

(** [int(q)] on a number with a fractional part: truncation towards
    zero.  The split fraction is a float in the notebook; it is taken as
    the rational it denotes, which is exact for dyadic fractions such as
    the configured 0.5. *)
Definition int_of_Q (q : Q) : Z := Z.quot (Qnum q) (Zpos (Qden q)).

(** [sub in s] on strings: [sub] occurs in [s] as a contiguous run. *)
Fixpoint str_in (sub s : string) : bool :=
  String.prefix sub s
  || match s with
     | EmptyString => false
     | String _ s' => str_in sub s'
     end.

Definition is_space (c : ascii) : bool :=
  let n := nat_of_ascii c in
  ((9 <=? n) && (n <=? 13) || (28 <=? n) && (n <=? 32))%nat.

Definition is_digit (c : ascii) : bool :=
  let n := nat_of_ascii c in ((48 <=? n) && (n <=? 57))%nat.

Definition digit_val (c : ascii) : Z := Z.of_nat (nat_of_ascii c) - 48.

Fixpoint lstrip (l : list ascii) : list ascii :=
  match l with
  | c :: tl => if is_space c then lstrip tl else l
  | [] => []
  end.

Definition strip (l : list ascii) : list ascii :=
  rev (lstrip (rev (lstrip l))).

(** Decimal digits with single underscores between them; [need_digit]
    holds at the start and right after an underscore. *)
Fixpoint parse_digits (acc : Z) (need_digit : bool) (l : list ascii)
  : option Z :=
  match l with
  | [] => if need_digit then None else Some acc
  | c :: tl =>
      if is_digit c then parse_digits (10 * acc + digit_val c) false tl
      else if (nat_of_ascii c =? 95)%nat && negb need_digit
           then parse_digits acc true tl
           else None
  end.

(** [int(s)] on an ASCII string; [None] when it raises [ValueError]. *)
Definition int_of_string (s : string) : option Z :=
  match strip (list_ascii_of_string s) with
  | c :: tl =>
      if (nat_of_ascii c =? 45)%nat
      then option_map Z.opp (parse_digits 0 true tl)
      else if (nat_of_ascii c =? 43)%nat then parse_digits 0 true tl
      else parse_digits 0 true (c :: tl)
  | [] => None
  end.

End Py.

(** ** Sample generator (second code cell) *)

(** The random generator behind [np.random.choice]: [rng_randint a] draws
    from [np.arange(a)]. *)
Class Rng := {
  rng_state : Type;
  rng_randint : Z -> rng_state -> Z * rng_state;
  rng_randint_range :
    forall a s, 0 < a -> 0 <= fst (rng_randint a s) < a
}.

(** A generator that replays a recorded list of raw draws. *)
Definition replay_randint (a : Z) (s : list Z) : Z * list Z :=
  match s with
  | [] => (0, [])
  | r :: s' => (r mod a, s')
  end.

Definition replay_rng : Rng := {|
  rng_state := list Z;
  rng_randint := replay_randint;
  rng_randint_range := fun a s Ha =>
    match s return 0 <= fst (replay_randint a s) < a with
    | [] => conj (Z.le_refl 0) Ha
    | r :: _ => Z.mod_pos_bound r a Ha
    end
|}.

Module SampleData.

Definition dtype_of_string (s : string) : option dtype :=
  if String.eqb s "uint8" then Some uint8
  else if String.eqb s "uint16" then Some uint16
  else if String.eqb s "uint32" then Some uint32
  else None.

(** The population size handed to [np.random.choice] for each dtype. *)
Definition choice_population (dt : dtype) : Z :=
  match dt with
  | uint8 => max_uint8
  | uint16 => max_uint16
  | uint32 => max_uint32
  end.

Section Generator.
Context {R : Rng}.

(** [np.random.choice(a, samples, replace=True)]. *)
Fixpoint random_choice (a : Z) (samples : nat) (s : rng_state)
  : list Z * rng_state :=
  match samples with
  | O => ([], s)
  | S n =>
      let '(v, s1) := rng_randint a s in
      let '(vs, s2) := random_choice a n s1 in
      (v :: vs, s2)
  end.

(** One of the [x_init_*] lambdas: a column of [samples] draws. *)
Definition x_init (dt : dtype) (samples : nat) (s : rng_state)
  : list Z * rng_state :=
  let '(c, s') := random_choice (choice_population dt) samples s in
  (Numpy.astype dt c, s').

Definition gen_x (samples : nat) (dt : dtype) (s : rng_state)
  : (list Z * list Z) * rng_state :=
  let '(x0_uint, s1) := x_init dt samples s in
  let '(x1_uint, s2) := x_init dt samples s1 in
  ((x0_uint, x1_uint), s2).
End Generator.

(** [np.hstack] of two columns: one row [[a; b]] per sample. *)
Definition hstack (x0 x1 : list Z) : result (list (list Z)) :=
  if (length x0 =? length x1)%nat
  then Ok (map (fun p => [fst p; snd p]) (combine x0 x1))
  else Raise ValueError.

(** [np.sum(temp_x, axis=1, dtype=dt)]: the row is added up in the
    dtype, wrapping around. *)
Definition sum_axis1 (dt : dtype) (temp_x : list (list Z)) : list Z :=
  let m := 2 ^ Z.of_nat (bitwidth dt) in
  map (fun row => fold_left (fun acc v => (acc + v mod m) mod m) row 0)
    temp_x.

Definition calc_y (x0_uint x1_uint : list Z) (dt : dtype)
  : result (list Z) :=
  temp_x <- hstack x0_uint x1_uint ;;
  Ok (sum_axis1 dt temp_x).

(** [np.split(l, sections, axis=0)]: it first takes the length modulo
    [sections]. *)
Definition split {A} (l : list A) (sections : nat)
  : result (list (list A)) :=
  match sections with
  | O => Raise ZeroDivisionError
  | _ =>
      if (length l mod sections =? 0)%nat
      then Ok (Numpy.rows_of sections (length l / sections) l)
      else Raise ValueError
  end.

(** [print_batch_dims] reads [var[0]]. *)
Definition print_batch_dims {A} (var : list A) : result unit :=
  match var with [] => Raise IndexError | _ => Ok tt end.

(** The attributes [__init__] sets; a sequence of [x] holds one pair of
    operand bits per timestep, a sequence of [y] one sum bit. *)
Record t := {
  dtype_ : dtype;
  bitwidth_ : nat;
  x0_uint : list Z;
  x1_uint : list Z;
  y_uint : list Z;
  x0_samples_bits : list (list Z);
  x1_samples_bits : list (list Z);
  x_samples_bits_dims : list (list (Z * Z));
  y_samples_bits_dims : list (list Z);
  batch_count : nat;
  x_all : list (list (list (Z * Z)));
  y_all : list (list (list Z));
  x_train : list (list (list (Z * Z)));
  y_train : list (list (list Z));
  x_validation : list (list (list (Z * Z)));
  y_validation : list (list (list Z))
}.

(** The two splits cut out of the list of all batches. *)
Definition train_split {A} (train_batches : Z) (all : list A) : list A :=
  Py.slice_to (train_batches - 1) all.

Definition validation_split {A} (train_batches : Z) (all : list A)
  : list A :=
  Py.slice_from train_batches all.

Definition train_batches_of (train_validation_batches_split : Q)
  (batch_count : nat) : Z :=
  Py.int_of_Q
    (train_validation_batches_split * inject_Z (Z.of_nat batch_count))%Q.

Section Init.
Context {R : Rng}.

Definition init (samples : nat) (dtype_name : string) (batch_size : nat)
  (train_validation_batches_split : Q) (s : rng_state)
  : result t :=
  dt <- of_option ValueError (dtype_of_string dtype_name) ;;
  _ <- match batch_size with
       | O => Raise ZeroDivisionError
       | _ => if (samples mod batch_size =? 0)%nat then Ok tt
              else Raise ValueError
       end ;;
  let bw := bitwidth dt in
  let '((x0, x1), _) := gen_x samples dt s in
  y <- calc_y x0 x1 dt ;;
  let x0_bits := arr2inbits dt x0 in
  let x1_bits := arr2inbits dt x1 in
  let y_bits := arr2inbits dt y in
  x0_sb <- of_option ValueError (Numpy.reshape2 x0_bits samples bw) ;;
  x1_sb <- of_option ValueError (Numpy.reshape2 x1_bits samples bw) ;;
  let x_sbd := map (fun p => combine (fst p) (snd p))
                 (combine x0_sb x1_sb) in
  y_sbd <- of_option ValueError (Numpy.reshape2 y_bits samples bw) ;;
  let bc := (samples / batch_size)%nat in
  xa <- split x_sbd bc ;;
  ya <- split y_sbd bc ;;
  let train_batches :=
    train_batches_of train_validation_batches_split bc in
  let xt := train_split train_batches xa in
  let yt := train_split train_batches ya in
  let xv := validation_split train_batches xa in
  let yv := validation_split train_batches ya in
  _ <- print_batch_dims xt ;;
  _ <- print_batch_dims yt ;;
  _ <- print_batch_dims xv ;;
  _ <- print_batch_dims yv ;;
  Ok {| dtype_ := dt; bitwidth_ := bw;
        x0_uint := x0; x1_uint := x1; y_uint := y;
        x0_samples_bits := x0_sb; x1_samples_bits := x1_sb;
        x_samples_bits_dims := x_sbd; y_samples_bits_dims := y_sbd;
        batch_count := bc; x_all := xa; y_all := ya;
        x_train := xt; y_train := yt;
        x_validation := xv; y_validation := yv |}.
End Init.

End SampleData.

(** ** Recurrent cell (fifth code cell) *)

(** The TensorFlow operations the graph is built from, over an abstract
    type of float32 tensors, and the conversions between NumPy arrays and
    tensors that feeding and fetching perform. *)
Class TensorOps := {
  tensor : Type;
  matmul : tensor -> tensor -> tensor;
  add : tensor -> tensor -> tensor;
  relu : tensor -> tensor;
  sigmoid : tensor -> tensor;
  (** one timestep of a fed sequence: the [1, 2] slice [tf.unstack] yields *)
  of_bits : Z * Z -> tensor;
  (** [np.zeros([1, hidden_neurons])] *)
  zeros_state : tensor;
  (** [np.around] of one fetched [1, 1] prediction, read as an integer *)
  around : tensor -> Z
}.

Module RnnCell.
Section Graph.
Context {T : TensorOps}.

(** [self._weights] and [self._bias]. *)
Record weights := {
  w_i_h : tensor;
  w_h_h : tensor;
  b_h : tensor;
  w_h_o : tensor;
  b_o : tensor
}.

(** The branch [use_tf_rnn_api] selects.  The library branch holds the
    [BasicRNNCell(hidden_neurons)] object as the step function it
    applies to an input and a state. *)
Inductive realization :=
| Manual
| TfRnnApi (cell : tensor -> tensor -> tensor).

Record t := {
  bitwidth_ : nat;
  weights_ : weights;
  realization_ : realization
}.

(** Loop state of the manual unroll. *)
Record unrolled := {
  h_0 : tensor;
  _h : list tensor;
  _logits_series : list tensor
}.

Definition step (W : weights) (st : unrolled) (current_input : tensor)
  : unrolled :=
  let temp_h_1 := add (matmul current_input (w_i_h W)) (b_h W) in
  let h_1 := relu (add temp_h_1 (matmul (h_0 st) (w_h_h W))) in
  let o_1_logit := add (matmul h_1 (w_h_o W)) (b_o W) in
  {| h_0 := h_1;
     _h := _h st ++ [h_1];
     _logits_series := _logits_series st ++ [o_1_logit] |}.

Definition unroll (W : weights) (initial_state : tensor)
  (x_series : list tensor) : unrolled :=
  fold_left (step W) x_series
    {| h_0 := initial_state; _h := []; _logits_series := [] |}.

(** [tf.nn.dynamic_rnn(cell, x, initial_state)] followed by
    [tf.unstack]: the state after every timestep. *)
Fixpoint dynamic_rnn (cell : tensor -> tensor -> tensor)
  (state : tensor) (x_series : list tensor) : list tensor :=
  match x_series with
  | [] => []
  | x :: xs => let state' := cell x state in
               state' :: dynamic_rnn cell state' xs
  end.

Definition logits_series (rnn : t) (initial_state : tensor)
  (x_series : list tensor) : list tensor :=
  let W := weights_ rnn in
  match realization_ rnn with
  | Manual => _logits_series (unroll W initial_state x_series)
  | TfRnnApi cell =>
      map (fun state => add (matmul state (w_h_o W)) (b_o W))
        (dynamic_rnn cell initial_state x_series)
  end.

Definition predictions_series (rnn : t) (initial_state : tensor)
  (x_series : list tensor) : list tensor :=
  map sigmoid (logits_series rnn initial_state x_series).
End Graph.
End RnnCell.

(** ** Calculator wrapper (last code cells) *)

Inductive value := VInt (z : Z) | VBits (l : list Z).

(** What a run does that the user or the session can observe: a prompt, a
    printed line (format string and arguments), a model run. *)
Inductive event :=
| EvInput (fmt : string) (args : list value)
| EvPrint (fmt : string) (args : list value)
| EvSessRun (x : list (Z * Z)).

Inductive outcome := Finished | Raised (e : exn).

Module RNNCalc.
Section Calc.
Context {T : TensorOps}.

Record t := {
  rnn : RnnCell.t;
  max_val : Z;
  dtype_ : dtype
}.

Definition init (dt : dtype) (rnn : RnnCell.t) : t :=
  match dt with
  | uint8 => {| rnn := rnn; max_val := 2 ^ 8 - 1; dtype_ := dt |}
  | uint16 => {| rnn := rnn; max_val := 2 ^ 16 - 1; dtype_ := dt |}
  | uint32 => {| rnn := rnn; max_val := 2 ^ 32 - 1; dtype_ := dt |}
  end.

(** [_check_input], given the reply [input] returned. *)
Definition _check_input (self : t) (input_str : string)
  (x_unsafe : string) : list event * option Z :=
  let asked := EvInput input_str [VInt (max_val self)] in
  match Py.int_of_string x_unsafe with
  | None => ([asked; EvPrint "Not an integer!" []], None)
  | Some v =>
      if v <? 0
      then ([asked; EvPrint "Input must not be less than 0" []], None)
      else if v >? max_val self
      then ([asked; EvPrint "Input must not be greater than {}"
                      [VInt (max_val self)]], None)
      else ([asked], Some v)
  end.

(** The body of [if x0 is not None and x1 is not None]. *)
Definition calculate (self : t) (x0 x1 : Z) : list event * result unit :=
  let dt := dtype_ self in
  let x0_bits := arr2inbits dt [x0] in
  let x1_bits := arr2inbits dt [x1] in
  let x := combine x0_bits x1_bits in
  let shown :=
    [EvPrint "x0 int val: {}" [VInt x0];
     EvPrint "x0 bin val: {}" [VBits x0_bits];
     EvPrint "x0 int val: {}" [VInt x1];
     EvPrint "x0 bin val: {}" [VBits x1_bits]] in
  if negb (length x =? RnnCell.bitwidth_ (rnn self))%nat
  then (shown, Raise ValueError)
  else
    let predictions :=
      RnnCell.predictions_series (rnn self) zeros_state
        (map of_bits x) in
    let rounded_predictions := map around predictions in
    match Numpy.reshape1 rounded_predictions 32 with
    | None => (shown ++ [EvSessRun x], Raise ValueError)
    | Some reshaped =>
        let predictions_cleaned := Numpy.astype dt reshaped in
        match bits2arr predictions_cleaned dt with
        | None => (shown ++ [EvSessRun x], Raise ValueError)
        | Some [] => (shown ++ [EvSessRun x], Raise IndexError)
        | Some (y :: _) =>
            (shown ++
             [EvSessRun x;
              EvPrint "y  int val: {} and correct answer is {}"
                [VInt y; VInt (x0 + x1)];
              EvPrint "y  bin val: {}" [VBits predictions_cleaned]],
             Ok tt)
        end
    end.

(** One pass of the loop body up to the continuation prompt. *)
Definition round (self : t) (x0 x1 : option Z)
  : list event * result unit :=
  match x0, x1 with
  | Some v0, Some v1 => calculate self v0 v1
  | _, _ => ([], Ok tt)
  end.

Definition ask_x0 : string := "Please input x0 in range 0 to {}".
Definition ask_x1 : string := "Please input x1 in range 0 to {}".
Definition ask_again : event :=
  EvInput "Do you wish to perform a new calculation? (y/N)" [].

(** [user_input not in "Yy"]. *)
Definition stops (user_input : string) : bool :=
  negb (Py.str_in user_input "Yy").

(** [run], driven by the replies the user types; running out of
    replies is the [EOFError] of [input]. *)
Fixpoint run (self : t) (replies : list string)
  : list event * outcome :=
  match replies with
  | [] => ([EvInput ask_x0 [VInt (max_val self)]], Raised EOFError)
  | r0 :: replies1 =>
      let '(ev0, x0) := _check_input self ask_x0 r0 in
      match replies1 with
      | [] => (ev0 ++ [EvInput ask_x1 [VInt (max_val self)]],
               Raised EOFError)
      | r1 :: replies2 =>
          let '(ev1, x1) := _check_input self ask_x1 r1 in
          match round self x0 x1 with
          | (evc, Raise e) => (ev0 ++ ev1 ++ evc, Raised e)
          | (evc, Ok _) =>
              match replies2 with
              | [] => (ev0 ++ ev1 ++ evc ++ [ask_again],
                       Raised EOFError)
              | user_input :: rest =>
                  if stops user_input
                  then (ev0 ++ ev1 ++ evc ++ [ask_again], Finished)
                  else
                    let '(evs, o) := run self rest in
                    (ev0 ++ ev1 ++ evc ++ [ask_again] ++ evs, o)
              end
          end
      end
  end.
End Calc.
End RNNCalc.


(** The events that show a model run or a predicted sum. *)
Definition is_calculation (e : event) : bool :=
  match e with
  | EvSessRun _ => true
  | EvPrint fmt _ =>
      String.eqb fmt "y  int val: {} and correct answer is {}"
      || String.eqb fmt "y  bin val: {}"
  | EvInput _ _ => false
  end.

(** ** An integer instance of the tensor interface

    Tensors are integer matrices; the sigmoid is replaced by the threshold
    at zero it rounds to.  With the weights [adder_weights] the unrolled
    cell is a ripple-carry adder, which gives closed instances to run the
    calculator on. *)

Module IntTensor.

Fixpoint vadd (a b : list Z) : list Z :=
  match a, b with
  | x :: a', y :: b' => (x + y) :: vadd a' b'
  | [], _ => b
  | _, [] => a
  end.

Fixpoint row_times (r : list Z) (m : list (list Z)) : list Z :=
  match r, m with
  | ri :: r', mi :: m' => vadd (map (Z.mul ri) mi) (row_times r' m')
  | _, _ => []
  end.

Definition ops : TensorOps := {|
  tensor := list (list Z);
  matmul := fun a b => map (fun r => row_times r b) a;
  add := fun a b => map (fun p => vadd (fst p) (snd p)) (combine a b);
  relu := map (map (Z.max 0));
  sigmoid := map (map (fun z => if 0 <? z then 1 else 0));
  of_bits := fun p => [[fst p; snd p]];
  zeros_state := [[0; 0; 0]];
  around := fun m => hd 0 (hd [] m)
|}.

Definition adder_weights : @RnnCell.weights ops := {|
  RnnCell.w_i_h := [[1; 1; 1]; [1; 1; 1]] : @tensor ops;
  RnnCell.w_h_h := [[0; 0; 0]; [1; 1; 1]; [-1; -1; -1]] : @tensor ops;
  RnnCell.b_h := [[0; -1; -2]] : @tensor ops;
  RnnCell.w_h_o := [[1]; [-2]; [2]] : @tensor ops;
  RnnCell.b_o := [[0]] : @tensor ops
|}.

Definition adder (bitwidth : nat) : @RnnCell.t ops := {|
  RnnCell.bitwidth_ := bitwidth;
  RnnCell.weights_ := adder_weights;
  RnnCell.realization_ := RnnCell.Manual
|}.

Definition calc (dt : dtype) : @RNNCalc.t ops :=
  RNNCalc.init dt (adder (bitwidth dt)).

End IntTensor.

(** ** Vocabulary for stating what the bit sequences mean *)

(** The integer a bit sequence stands for when read least significant bit
    first. *)
Definition value_lsb (b : list Z) : Z :=
  fold_right (fun bit acc => bit + 2 * acc) 0 b.

(** Schoolbook addition of two bit sequences, least significant bit first:
    each position adds the two bits and the carry of the position before,
    keeps the sum modulo 2 and passes the rest on; the carry out of the
    last position is dropped. *)
Fixpoint ripple (carry : Z) (a b : list Z) : list Z :=
  match a, b with
  | x :: a', y :: b' =>
      (x + y + carry) mod 2 :: ripple ((x + y + carry) / 2) a' b'
  | _, _ => []
  end.

(** * Properties *)

(** ** Bit codec *)

(** The notebook's own tests of the codec. *)
Example test_arr2inbits_uint32 :
  arr2inbits uint32 [3; 5]
  = [1;0;1;0;0;0;0;0;0;0;0;0;0;0;0;0;0;0;0;0;0;0;0;0;0;0;0;0;0;0;0;0;
     1;1;0;0;0;0;0;0;0;0;0;0;0;0;0;0;0;0;0;0;0;0;0;0;0;0;0;0;0;0;0;0].
Proof. reflexivity. Qed.

Example test_arr2inbits_uint8 :
  arr2inbits uint8 [3; 5] = [1;0;1;0;0;0;0;0;1;1;0;0;0;0;0;0].
Proof. reflexivity. Qed.

Example test_bits2arr_pair :
  bits2arr
    [1;0;1;0;0;0;0;0;0;0;0;0;0;0;0;0;0;0;0;0;0;0;0;0;0;0;0;0;0;0;0;0;
     1;1;0;0;0;0;0;0;0;0;0;0;0;0;0;0;0;0;0;0;0;0;0;0;0;0;0;0;0;0;0;0]
    uint32 = Some [3; 5].
Proof. reflexivity. Qed.

Example test_bits2arr_256 :
  bits2arr
    [0;0;0;0;0;0;0;0;1;0;0;0;0;0;0;0;0;0;0;0;0;0;0;0;0;0;0;0;0;0;0;0]
    uint32 = Some [256].
Proof. reflexivity. Qed.

Section ByteLemmas.
Import Numpy.

Lemma bit_of_cases (z : Z) : bit_of z = 0 \/ bit_of z = 1.
Proof. unfold bit_of; destruct (z =? 0); auto. Qed.

Lemma bit_of_bit (z : Z) : is_bit z -> bit_of z = z.
Proof. intros [-> | ->]; reflexivity. Qed.

Lemma testbit_byte (v j k : Z) :
  0 <= j < 8 -> 0 <= k ->
  Z.testbit (Z.land (Z.shiftr v k) 255) j = Z.testbit v (j + k).
Proof.
  intros Hj Hk.
  rewrite Z.land_spec, Z.shiftr_spec by lia.
  change 255 with (Z.ones 8).
  rewrite Z.ones_spec_low by lia.
  apply andb_true_r.
Qed.

Lemma byte_land_shiftr (v k : Z) :
  0 <= k -> Z.land (Z.shiftr v k) 255 = (v / 2 ^ k) mod 256.
Proof.
  intros Hk. change 255 with (Z.ones 8).
  rewrite Z.land_ones, Z.shiftr_div_pow2 by lia. reflexivity.
Qed.

Lemma pack_unpack_table :
  forallb (fun n => pack_byte (unpack_byte (Z.of_nat n)) =? Z.of_nat n)
    (seq 0 256) = true.
Proof. vm_compute. reflexivity. Qed.

Lemma pack_unpack_byte (b : Z) :
  0 <= b < 256 -> pack_byte (unpack_byte b) = b.
Proof.
  intros Hb.
  pose proof pack_unpack_table as Htab.
  rewrite forallb_forall in Htab.
  specialize (Htab (Z.to_nat b)).
  rewrite Z2Nat.id in Htab by lia.
  apply Z.eqb_eq, Htab, in_seq. lia.
Qed.

Lemma unpack_pack_byte (b7 b6 b5 b4 b3 b2 b1 b0 : Z) :
  unpack_byte (pack_byte [b7; b6; b5; b4; b3; b2; b1; b0])
  = map bit_of [b7; b6; b5; b4; b3; b2; b1; b0].
Proof.
  cbn [pack_byte fold_left map].
  destruct (bit_of_cases b7) as [-> | ->],
           (bit_of_cases b6) as [-> | ->],
           (bit_of_cases b5) as [-> | ->],
           (bit_of_cases b4) as [-> | ->],
           (bit_of_cases b3) as [-> | ->],
           (bit_of_cases b2) as [-> | ->],
           (bit_of_cases b1) as [-> | ->],
           (bit_of_cases b0) as [-> | ->]; reflexivity.
Qed.

Lemma pack_byte_range (b7 b6 b5 b4 b3 b2 b1 b0 : Z) :
  0 <= pack_byte [b7; b6; b5; b4; b3; b2; b1; b0] < 256.
Proof.
  cbn [pack_byte fold_left].
  pose proof (bit_of_cases b7); pose proof (bit_of_cases b6);
  pose proof (bit_of_cases b5); pose proof (bit_of_cases b4);
  pose proof (bit_of_cases b3); pose proof (bit_of_cases b2);
  pose proof (bit_of_cases b1); pose proof (bit_of_cases b0).
  lia.
Qed.

Lemma be_bytes_length (n : nat) (v : Z) : length (be_bytes n v) = n.
Proof. induction n; simpl; congruence. Qed.

Lemma be_bytes_range (n : nat) (v : Z) :
  Forall (fun b => 0 <= b < 256) (be_bytes n v).
Proof.
  induction n; cbn [be_bytes]; constructor; auto.
  rewrite byte_land_shiftr by lia.
  apply Z.mod_pos_bound; lia.
Qed.

Lemma unpack_byte_is_bit (b : Z) : Forall is_bit (unpack_byte b).
Proof.
  unfold unpack_byte.
  apply Forall_map, Forall_forall; intros i _.
  unfold is_bit; destruct (Z.testbit b i); auto.
Qed.

Lemma unpackbits_is_bit (bs : list Z) : Forall is_bit (unpackbits bs).
Proof.
  unfold unpackbits; induction bs as [| b bs IH]; cbn [flat_map].
  - constructor.
  - apply Forall_app; split; [apply unpack_byte_is_bit | exact IH].
Qed.

Lemma unpackbits_length (bs : list Z) :
  length (unpackbits bs) = (8 * length bs)%nat.
Proof.
  unfold unpackbits; induction bs as [| b bs IH]; [reflexivity |].
  cbn [flat_map]. rewrite length_app, IH.
  unfold unpack_byte; rewrite length_map; simpl; lia.
Qed.

Lemma packbits_unpackbits (bs : list Z) :
  Forall (fun b => 0 <= b < 256) bs -> packbits (unpackbits bs) = bs.
Proof.
  induction 1 as [| b bs Hb _ IH]; [reflexivity |].
  change (unpackbits (b :: bs)) with (unpack_byte b ++ unpackbits bs).
  change (packbits (unpack_byte b ++ unpackbits bs))
    with (pack_byte (unpack_byte b) :: packbits (unpackbits bs)).
  rewrite pack_unpack_byte, IH by assumption. reflexivity.
Qed.

(** Reshaping a concatenation of equally long rows gives the rows. *)
Lemma rows_of_flat_map {A B} (f : A -> list B) (k : nat) (xs : list A) :
  (forall x, length (f x) = k) ->
  rows_of (length xs) k (flat_map f xs) = map f xs.
Proof.
  intros Hk; induction xs as [| x xs IH]; [reflexivity |].
  cbn [length rows_of flat_map map].
  rewrite firstn_app, skipn_app, Hk, Nat.sub_diag.
  rewrite firstn_all2, skipn_all2 by (rewrite Hk; lia).
  cbn [firstn skipn app]. rewrite app_nil_r, IH. reflexivity.
Qed.

Lemma flat_map_length_const {A B} (f : A -> list B) (k : nat)
  (xs : list A) :
  (forall x, length (f x) = k) ->
  length (flat_map f xs) = (length xs * k)%nat.
Proof.
  intros Hk; induction xs as [| x xs IH]; [reflexivity |].
  cbn [flat_map length]. rewrite length_app, Hk, IH. lia.
Qed.

Lemma reshape2_flat_map {A B} (f : A -> list B) (k : nat) (xs : list A) :
  (0 < k)%nat -> (forall x, length (f x) = k) ->
  reshape2 (flat_map f xs) (length (flat_map f xs) / k) k
  = Some (map f xs).
Proof.
  intros Hpos Hk. unfold reshape2.
  rewrite (flat_map_length_const f k xs Hk).
  rewrite Nat.div_mul by lia.
  rewrite Nat.eqb_refl, rows_of_flat_map by assumption. reflexivity.
Qed.

Lemma be_bytes_single (v : Z) :
  0 <= v < 2 ^ 8 -> be_bytes 1 v = [v].
Proof.
  intros Hv. cbn [be_bytes]. rewrite byte_land_shiftr by lia.
  change (8 * Z.of_nat 0) with 0. change (2 ^ 0) with 1.
  rewrite Z.div_1_r, Z.mod_small by lia. reflexivity.
Qed.

Lemma weighted_be_bytes2 (v : Z) :
  0 <= v < 2 ^ 16 -> weighted [2 ^ 8; 1] (be_bytes 2 v) = v.
Proof.
  intros Hv. cbn [be_bytes weighted].
  rewrite !byte_land_shiftr by lia.
  change (8 * Z.of_nat 1) with 8. change (8 * Z.of_nat 0) with 0.
  change (2 ^ 16) with 65536 in Hv.
  change (2 ^ 8) with 256. change (2 ^ 0) with 1.
  Z.div_mod_to_equations. lia.
Qed.

Lemma weighted_be_bytes4 (v : Z) :
  0 <= v < 2 ^ 32 ->
  weighted [2 ^ 24; 2 ^ 16; 2 ^ 8; 1] (be_bytes 4 v) = v.
Proof.
  intros Hv. cbn [be_bytes weighted].
  rewrite !byte_land_shiftr by lia.
  change (8 * Z.of_nat 3) with 24. change (8 * Z.of_nat 2) with 16.
  change (8 * Z.of_nat 1) with 8. change (8 * Z.of_nat 0) with 0.
  change (2 ^ 32) with 4294967296 in Hv.
  change (2 ^ 24) with 16777216. change (2 ^ 16) with 65536.
  change (2 ^ 8) with 256. change (2 ^ 0) with 1.
  Z.div_mod_to_equations. lia.
Qed.

Lemma be_bytes_weighted2 (B1 B0 : Z) :
  0 <= B1 < 256 -> 0 <= B0 < 256 ->
  be_bytes 2 (weighted [2 ^ 8; 1] [B1; B0]) = [B1; B0].
Proof.
  intros H1 H0. cbn [be_bytes weighted].
  rewrite !byte_land_shiftr by lia.
  change (8 * Z.of_nat 1) with 8. change (8 * Z.of_nat 0) with 0.
  change (2 ^ 8) with 256. change (2 ^ 0) with 1.
  repeat f_equal; Z.div_mod_to_equations; lia.
Qed.

Lemma be_bytes_weighted4 (B3 B2 B1 B0 : Z) :
  0 <= B3 < 256 -> 0 <= B2 < 256 -> 0 <= B1 < 256 -> 0 <= B0 < 256 ->
  be_bytes 4 (weighted [2 ^ 24; 2 ^ 16; 2 ^ 8; 1] [B3; B2; B1; B0])
  = [B3; B2; B1; B0].
Proof.
  intros H3 H2 H1 H0. cbn [be_bytes weighted].
  rewrite !byte_land_shiftr by lia.
  change (8 * Z.of_nat 3) with 24. change (8 * Z.of_nat 2) with 16.
  change (8 * Z.of_nat 1) with 8. change (8 * Z.of_nat 0) with 0.
  change (2 ^ 24) with 16777216. change (2 ^ 16) with 65536.
  change (2 ^ 8) with 256. change (2 ^ 0) with 1.
  repeat f_equal; Z.div_mod_to_equations; lia.
Qed.

End ByteLemmas.

Ltac decode_explicit :=
  cbn [rev app Numpy.packbits length Numpy.rows_of firstn skipn map Nat.div
       Nat.divmod Nat.eqb Nat.mul Nat.add Nat.sub fst snd].

Section Codec.
Import Numpy.

(** The bits of one encoded integer, least significant first. *)
Lemma arr2inbits_lsb_first (dt : dtype) (v : Z) :
  arr2inbits dt [v]
  = map (fun i => Z.b2z (Z.testbit v (Z.of_nat i))) (seq 0 (bitwidth dt)).
Proof.
  destruct dt;
    cbv [arr2inbits view_uint8_be unpackbits flat_map be_bytes itemsize
         unpack_byte map app rev bitwidth seq];
    rewrite !testbit_byte by lia; reflexivity.
Qed.

Lemma arr2inbits_length (dt : dtype) (xs : list Z) :
  length (arr2inbits dt xs) = (length xs * bitwidth dt)%nat.
Proof.
  unfold arr2inbits, view_uint8_be.
  rewrite length_rev, unpackbits_length.
  rewrite (flat_map_length_const _ (itemsize dt))
    by (intros; apply be_bytes_length).
  destruct dt; simpl; lia.
Qed.

Lemma arr2inbits_is_bit (dt : dtype) (xs : list Z) :
  Forall is_bit (arr2inbits dt xs).
Proof. unfold arr2inbits. apply Forall_rev, unpackbits_is_bit. Qed.

Lemma view_uint8_be_range (dt : dtype) (xs : list Z) :
  Forall (fun b => 0 <= b < 256) (view_uint8_be dt xs).
Proof.
  unfold view_uint8_be. induction xs as [| x xs IH]; cbn [flat_map].
  - constructor.
  - apply Forall_app; split; [apply be_bytes_range | exact IH].
Qed.

(** Decoding an encoded array gives the array back, whatever its
    length. *)
Lemma bits2arr_arr2inbits (dt : dtype) (xs : list Z) :
  Forall (in_range dt) xs -> bits2arr (arr2inbits dt xs) dt = Some xs.
Proof.
  intros Hxs. unfold bits2arr, arr2inbits.
  rewrite rev_involutive, packbits_unpackbits
    by apply view_uint8_be_range.
  unfold view_uint8_be.
  assert (Hmap : forall (f : Z -> Z), (forall x, in_range dt x -> f x = x)
                 -> map f xs = xs).
  { intros f Hf. induction Hxs as [| x xs Hx _ IH]; cbn [map];
      [reflexivity | rewrite Hf, IH by assumption; reflexivity]. }
  destruct dt; cbn [itemsize].
  - f_equal. clear Hmap.
    induction Hxs as [| x xs Hx _ IH]; cbn [flat_map]; [reflexivity |].
    rewrite be_bytes_single by exact Hx.
    cbn [app]. f_equal. exact IH.
  - rewrite reshape2_flat_map
      by (try lia; intros; apply be_bytes_length).
    rewrite map_map. f_equal. apply Hmap.
    intros x Hx. apply weighted_be_bytes2, Hx.
  - rewrite reshape2_flat_map
      by (try lia; intros; apply be_bytes_length).
    rewrite map_map. f_equal. apply Hmap.
    intros x Hx. apply weighted_be_bytes4, Hx.
Qed.

Tactic Notation "explicit_bits" ident(b) integer(n) :=
  do n (destruct b as [| ? b]; [discriminate |]);
  destruct b; [| discriminate];
  repeat match goal with
         | H : Forall _ (_ :: _) |- _ => inversion H; clear H; subst
         end.

Ltac encode_explicit :=
  cbn [app unpackbits flat_map]; rewrite !unpack_pack_byte;
  cbn [map app rev]; rewrite !bit_of_bit by assumption; reflexivity.

Lemma pack_byte_range_list (l : list Z) :
  length l = 8%nat -> 0 <= pack_byte l < 256.
Proof.
  intros Hl. do 8 (destruct l as [| ? l]; [discriminate |]).
  destruct l; [| discriminate]. apply pack_byte_range.
Qed.

(** Encoding a decoded bit vector of the dtype's width gives the vector
    back. *)
Lemma arr2inbits_bits2arr (dt : dtype) (b : list Z) :
  length b = bitwidth dt -> Forall is_bit b ->
  exists v, in_range dt v /\ bits2arr b dt = Some [v]
            /\ arr2inbits dt [v] = b.
Proof.
  intros Hlen Hbits. destruct dt; cbn [bitwidth] in Hlen.
  - explicit_bits b 8.
    eexists; split; [| split].
    2: { unfold bits2arr. decode_explicit. reflexivity. }
    + apply pack_byte_range.
    + unfold arr2inbits, view_uint8_be. cbn [flat_map itemsize].
      rewrite be_bytes_single by apply pack_byte_range.
      encode_explicit.
  - explicit_bits b 16.
    eexists; split; [| split].
    2: { unfold bits2arr, reshape2. decode_explicit. reflexivity. }
    + unfold in_range. cbn [weighted bitwidth].
      repeat match goal with
             | |- context [pack_byte ?l] =>
                 let H := fresh in
                 pose proof (pack_byte_range_list l eq_refl) as H;
                 generalize dependent (pack_byte l); intros
             end.
      change (2 ^ Z.of_nat 16) with 65536. change (2 ^ 8) with 256. lia.
    + unfold arr2inbits, view_uint8_be. cbn [flat_map itemsize].
      rewrite be_bytes_weighted2 by apply pack_byte_range.
      encode_explicit.
  - explicit_bits b 32.
    eexists; split; [| split].
    2: { unfold bits2arr, reshape2. decode_explicit. reflexivity. }
    + unfold in_range. cbn [weighted bitwidth].
      repeat match goal with
             | |- context [pack_byte ?l] =>
                 let H := fresh in
                 pose proof (pack_byte_range_list l eq_refl) as H;
                 generalize dependent (pack_byte l); intros
             end.
      change (2 ^ Z.of_nat 32) with 4294967296.
      change (2 ^ 24) with 16777216. change (2 ^ 16) with 65536.
      change (2 ^ 8) with 256. lia.
    + unfold arr2inbits, view_uint8_be. cbn [flat_map itemsize].
      rewrite be_bytes_weighted4 by apply pack_byte_range.
      encode_explicit.
Qed.

End Codec.

(** C1. For each of the three widths the codec is a bijection between the
    integers of [[0, 2^w)] and the 0/1 vectors of length [w]: an integer is
    encoded as its [w] bits, least significant first, and decodes to itself;
    a length-[w] bit vector decodes to an integer of the range that encodes
    to the same vector. *)
Theorem codec_bijection (dt : dtype) :
  (forall v, in_range dt v ->
     arr2inbits dt [v]
     = map (fun i => Z.b2z (Z.testbit v (Z.of_nat i))) (seq 0 (bitwidth dt))
     /\ length (arr2inbits dt [v]) = bitwidth dt
     /\ Forall is_bit (arr2inbits dt [v])
     /\ bits2arr (arr2inbits dt [v]) dt = Some [v])
  /\ (forall b, length b = bitwidth dt -> Forall is_bit b ->
        exists v, in_range dt v /\ bits2arr b dt = Some [v]
                  /\ arr2inbits dt [v] = b).
Proof.
  split.
  - intros v Hv. repeat split.
    + apply arr2inbits_lsb_first.
    + rewrite arr2inbits_length. simpl. lia.
    + apply arr2inbits_is_bit.
    + apply bits2arr_arr2inbits. constructor; [exact Hv | constructor].
  - apply arr2inbits_bits2arr.
Qed.

Lemma codec_bijection_witness :
  (in_range uint16 45246
   /\ bits2arr (arr2inbits uint16 [45246]) uint16 = Some [45246])
  /\ (exists v, in_range uint8 v
                /\ bits2arr [0; 0; 1; 1; 0; 1; 0; 0] uint8 = Some [v]
                /\ arr2inbits uint8 [v] = [0; 0; 1; 1; 0; 1; 0; 0]).
Proof.
  assert (Hr : in_range uint16 45246) by (unfold in_range; simpl; lia).
  split.
  - split; [exact Hr |].
    exact (proj2 (proj2 (proj2 (proj1 (codec_bijection uint16) 45246 Hr)))).
  - apply (proj2 (codec_bijection uint8) [0; 0; 1; 1; 0; 1; 0; 0]).
    + reflexivity.
    + repeat constructor; unfold is_bit; lia.
Defined.

(** ** Sample generator *)

Section GeneratorFacts.
Context {R : Rng}.
Import SampleData.

Lemma choice_population_pos (dt : dtype) : 0 < choice_population dt.
Proof. destruct dt; reflexivity. Qed.

Lemma choice_population_max (dt : dtype) :
  choice_population dt = 2 ^ Z.of_nat (bitwidth dt) - 1.
Proof. destruct dt; reflexivity. Qed.

Lemma random_choice_spec (a : Z) (samples : nat) (s : rng_state) :
  0 < a ->
  length (fst (random_choice a samples s)) = samples
  /\ Forall (fun v => 0 <= v < a) (fst (random_choice a samples s)).
Proof.
  intros Ha. revert s. induction samples as [| n IH]; intros s.
  - split; [reflexivity | constructor].
  - cbn [random_choice].
    pose proof (rng_randint_range a s Ha) as Hv.
    destruct (rng_randint a s) as [v s1].
    specialize (IH s1). destruct (random_choice a n s1) as [vs s2].
    cbn [fst] in *. destruct IH as [Hlen Hall].
    split; [cbn [length]; congruence | constructor; assumption].
Qed.

Lemma x_init_spec (dt : dtype) (samples : nat) (s : rng_state) :
  length (fst (x_init dt samples s)) = samples
  /\ Forall (fun v => 0 <= v < choice_population dt)
       (fst (x_init dt samples s)).
Proof.
  unfold x_init.
  pose proof (random_choice_spec (choice_population dt) samples s
                (choice_population_pos dt)) as [Hlen Hall].
  destruct (random_choice (choice_population dt) samples s) as [c s'].
  cbn [fst] in *. unfold Numpy.astype. rewrite length_map.
  split; [exact Hlen |].
  apply Forall_map. revert Hall. apply Forall_impl. intros v Hv.
  rewrite Z.mod_small; [exact Hv |].
  rewrite choice_population_max in Hv. lia.
Qed.

Lemma gen_x_spec (samples : nat) (dt : dtype) (s : rng_state) :
  let x0 := fst (fst (gen_x samples dt s)) in
  let x1 := snd (fst (gen_x samples dt s)) in
  (length x0 = samples /\ length x1 = samples)
  /\ Forall (fun v => 0 <= v < choice_population dt) x0
  /\ Forall (fun v => 0 <= v < choice_population dt) x1.
Proof.
  unfold gen_x.
  pose proof (x_init_spec dt samples s) as [Hl0 Ha0].
  destruct (x_init dt samples s) as [x0 s1].
  pose proof (x_init_spec dt samples s1) as [Hl1 Ha1].
  destruct (x_init dt samples s1) as [x1 s2].
  cbn [fst snd] in *. auto.
Qed.

End GeneratorFacts.

Section SumFacts.
Import SampleData.

Lemma calc_y_spec (dt : dtype) (x0 x1 : list Z) :
  length x0 = length x1 ->
  calc_y x0 x1 dt
  = Ok (map (fun p => (fst p + snd p) mod 2 ^ Z.of_nat (bitwidth dt))
          (combine x0 x1)).
Proof.
  intros Hlen. unfold calc_y, hstack.
  rewrite Hlen, Nat.eqb_refl. cbn [bind]. f_equal.
  unfold sum_axis1. rewrite map_map. apply map_ext. intros [a b].
  cbn [fst snd fold_left].
  set (m := 2 ^ Z.of_nat (bitwidth dt)).
  assert (Hm : 0 < m) by (subst m; apply Z.pow_pos_nonneg; lia).
  rewrite Z.add_0_l, Z.mod_mod by lia.
  rewrite <- Z.add_mod by lia. reflexivity.
Qed.

Lemma calc_y_inv (dt : dtype) (x0 x1 y : list Z) :
  calc_y x0 x1 dt = Ok y ->
  length x0 = length x1
  /\ y = map (fun p => (fst p + snd p) mod 2 ^ Z.of_nat (bitwidth dt))
           (combine x0 x1).
Proof.
  intros Hy.
  assert (Hlen : length x0 = length x1).
  { unfold calc_y, hstack in Hy.
    destruct (length x0 =? length x1)%nat eqn:E;
      [apply Nat.eqb_eq, E | discriminate]. }
  rewrite calc_y_spec in Hy by exact Hlen.
  split; [exact Hlen | congruence].
Qed.

End SumFacts.

Section SplitFacts.
Import SampleData.

Lemma rows_of_length {A} (rows cols : nat) (l : list A) :
  length (Numpy.rows_of rows cols l) = rows.
Proof.
  revert l; induction rows as [| r IH]; intros l; cbn [Numpy.rows_of];
    [reflexivity | cbn [length]; rewrite IH; reflexivity].
Qed.

Lemma split_length {A} (l : list A) (sections : nat)
  (r : list (list A)) :
  split l sections = Ok r -> length r = sections.
Proof.
  unfold split. destruct sections as [| n]; [discriminate |].
  destruct (length l mod S n =? 0)%nat; [| discriminate].
  intros [= <-]. exact (rows_of_length (S n) _ l).
Qed.

Lemma skipn_nth_error {A} (n : nat) (l : list A) (d : A) :
  nth_error l n = Some d -> skipn n l = d :: skipn (S n) l.
Proof.
  revert l; induction n as [| n IH]; intros [| a l] Hn;
    try discriminate.
  - injection Hn as ->. reflexivity.
  - cbn [nth_error] in Hn. change (skipn n l = d :: skipn (S n) l).
    apply IH, Hn.
Qed.

(** With a positive number of training batches that does not exceed the
    number of batches, the training slice stops one batch short of where
    the validation slice starts. *)
Lemma splits_leave_a_gap {A} (tb : Z) (all : list A) :
  0 < tb <= Z.of_nat (length all) ->
  train_split tb all = firstn (Z.to_nat tb - 1) all
  /\ validation_split tb all = skipn (Z.to_nat tb) all
  /\ exists dropped,
       nth_error all (Z.to_nat tb - 1) = Some dropped
       /\ all = train_split tb all ++ dropped :: validation_split tb all.
Proof.
  intros Htb.
  assert (Ht : train_split tb all = firstn (Z.to_nat tb - 1) all).
  { unfold train_split, Py.slice_to.
    destruct (tb - 1 <? 0) eqn:E; [apply Z.ltb_lt in E; lia |].
    f_equal. lia. }
  assert (Hv : validation_split tb all = skipn (Z.to_nat tb) all).
  { unfold validation_split, Py.slice_from.
    destruct (tb <? 0) eqn:E; [apply Z.ltb_lt in E; lia |].
    f_equal. lia. }
  rewrite Ht, Hv. repeat split.
  destruct (nth_error all (Z.to_nat tb - 1)) as [d |] eqn:Hn.
  - exists d. split; [reflexivity |].
    rewrite <- (firstn_skipn (Z.to_nat tb - 1) all) at 1. f_equal.
    rewrite (skipn_nth_error _ _ _ Hn). do 2 f_equal. lia.
  - apply nth_error_None in Hn. lia.
Qed.

Context {R : Rng}.

(** What a successful construction has stored. *)
Lemma init_inv (samples : nat) (name : string) (batch_size : nat)
  (fraction : Q) (s : rng_state) (d : t) :
  init samples name batch_size fraction s = Ok d ->
  dtype_of_string name = Some (dtype_ d)
  /\ (x0_uint d, x1_uint d) = fst (gen_x samples (dtype_ d) s)
  /\ calc_y (x0_uint d) (x1_uint d) (dtype_ d) = Ok (y_uint d)
  /\ batch_count d = (samples / batch_size)%nat
  /\ length (x_all d) = batch_count d
  /\ length (y_all d) = batch_count d
  /\ (let tb := train_batches_of fraction (batch_count d) in
      x_train d = train_split tb (x_all d)
      /\ y_train d = train_split tb (y_all d)
      /\ x_validation d = validation_split tb (x_all d)
      /\ y_validation d = validation_split tb (y_all d))
  /\ x_train d <> [] /\ x_validation d <> [].
Proof.
  unfold init. intros H.
  destruct (dtype_of_string name) as [dt |] eqn:Hdt;
    cbn [of_option bind] in H; [| discriminate].
  destruct batch_size as [| bs]; cbn [bind] in H; [discriminate |].
  destruct (samples mod S bs =? 0)%nat; cbn [bind] in H;
    [| discriminate].
  destruct (gen_x samples dt s) as [[x0 x1] s'] eqn:Hgen.
  destruct (calc_y x0 x1 dt) as [y |] eqn:Hy; cbn [bind] in H;
    [| discriminate].
  repeat match type of H with
         | bind (of_option _ ?o) _ = _ =>
             destruct o; cbn [of_option bind] in H; [| discriminate]
         end.
  destruct (split _ _) as [xa |] eqn:Hxa in H; cbn [bind] in H;
    [| discriminate].
  destruct (split _ _) as [ya |] eqn:Hya in H; cbn [bind] in H;
    [| discriminate].
  repeat match type of H with
         | bind (print_batch_dims ?v) _ = _ =>
             let E := fresh "Hne" in
             destruct v eqn:E; cbn [print_batch_dims bind] in H;
             [discriminate | rewrite <- E in H]
         end.
  injection H as <-. cbn [dtype_ x0_uint x1_uint y_uint batch_count
                            x_all y_all x_train y_train x_validation
                            y_validation fst].
  apply split_length in Hxa, Hya.
  repeat split; try assumption; try reflexivity.
  - rewrite Hgen. reflexivity.
  - intros Hc. cbn in Hne. rewrite Hc in Hne. discriminate.
  - intros Hc. cbn in Hne1. rewrite Hc in Hne1. discriminate.
Qed.

End SplitFacts.

Section GeneratorClaims.
Import SampleData.

Lemma validation_nonempty_bound {A} (tb : Z) (all : list A) :
  0 <= tb -> validation_split tb all <> [] -> tb < Z.of_nat (length all).
Proof.
  intros Hpos Hne.
  destruct (Z.ltb_spec tb (Z.of_nat (length all))) as [| Hge];
    [assumption | exfalso; apply Hne].
  unfold validation_split, Py.slice_from.
  destruct (tb <? 0) eqn:E; [apply Z.ltb_lt in E; lia |].
  rewrite Z.min_r, Nat2Z.id by lia. apply skipn_all.
Qed.

(** Shape of the two splits of a constructed data set whose number of
    training batches is positive. *)
Lemma init_split_shape {R : Rng} (samples : nat) (name : string)
  (batch_size : nat) (fraction : Q) (s : rng_state) (d : t) :
  init samples name batch_size fraction s = Ok d ->
  0 < train_batches_of fraction (batch_count d) ->
  Z.of_nat (length (x_train d))
  = train_batches_of fraction (batch_count d) - 1
  /\ Z.of_nat (length (x_validation d))
     = Z.of_nat (batch_count d) - train_batches_of fraction (batch_count d)
  /\ exists dropped,
       x_all d = x_train d ++ dropped :: x_validation d.
Proof.
  intros Hinit Htb.
  destruct (init_inv _ _ _ _ _ _ Hinit)
    as (_ & _ & _ & _ & Hxa & _ & (Hxt & _ & Hxv & _) & _ & Hne).
  cbv zeta in Hxt, Hxv.
  set (tb := train_batches_of fraction (batch_count d)) in *.
  assert (Hlt : tb < Z.of_nat (length (x_all d))).
  { apply validation_nonempty_bound; [lia | rewrite <- Hxv; exact Hne]. }
  destruct (splits_leave_a_gap tb (x_all d) ltac:(lia))
    as (Ht & Hv & dropped & _ & Hall).
  rewrite <- Hxt, <- Hxv in Hall.
  rewrite Hxt, Hxv, Ht, Hv, length_firstn, length_skipn, <- Hxa.
  repeat split; try lia.
  exists dropped. rewrite <- Ht, <- Hv, <- Hxt, <- Hxv. exact Hall.
Qed.

End GeneratorClaims.

(** C2. Every sum the generator stores is the modular sum of its operand
    pair: in a constructed data set, and for [calc_y] on any two columns of
    equal length, [y = (x0 + x1) mod 2^w]; at width 8 the pair (200, 100)
    gives 44. *)
Theorem generator_modular_sum :
  (forall (R : Rng) samples name batch_size fraction s d,
      SampleData.init samples name batch_size fraction s = Ok d ->
      length (SampleData.x0_uint d) = samples
      /\ length (SampleData.x1_uint d) = samples
      /\ SampleData.y_uint d
         = map (fun p => (fst p + snd p)
                         mod 2 ^ Z.of_nat (bitwidth (SampleData.dtype_ d)))
             (combine (SampleData.x0_uint d) (SampleData.x1_uint d)))
  /\ (forall dt x0 x1,
         length x0 = length x1 ->
         SampleData.calc_y x0 x1 dt
         = Ok (map (fun p => (fst p + snd p) mod 2 ^ Z.of_nat (bitwidth dt))
                 (combine x0 x1)))
  /\ SampleData.calc_y [200] [100] uint8 = Ok [44].
Proof.
  split; [| split].
  - intros R samples name batch_size fraction s d Hinit.
    destruct (init_inv _ _ _ _ _ _ Hinit) as (_ & Hgen & Hy & _).
    pose proof (gen_x_spec samples (SampleData.dtype_ d) s)
      as [[Hl0 Hl1] _].
    rewrite <- Hgen in Hl0, Hl1. cbn [fst snd] in Hl0, Hl1.
    apply calc_y_inv in Hy. destruct Hy as [_ Hy]. auto.
  - intros dt x0 x1. apply calc_y_spec.
  - reflexivity.
Qed.

Lemma generator_modular_sum_witness :
  exists d,
    @SampleData.init replay_rng 8 "uint8" 2 (1 # 2)
      [200; 1; 2; 3; 4; 5; 6; 7; 100; 254; 253; 9; 8; 7; 6; 5] = Ok d
    /\ SampleData.y_uint d
       = map (fun p => (fst p + snd p) mod 2 ^ 8)
           (combine (SampleData.x0_uint d) (SampleData.x1_uint d))
    /\ SampleData.calc_y [200; 7] [100; 5] uint8 = Ok [44; 12].
Proof.
  assert (Hok : match @SampleData.init replay_rng 8 "uint8" 2 (1 # 2)
                 [200; 1; 2; 3; 4; 5; 6; 7; 100; 254; 253; 9; 8; 7; 6; 5]
                 with Ok _ => true | Raise _ => false end = true)
    by (vm_compute; reflexivity).
  destruct (@SampleData.init replay_rng 8 "uint8" 2 (1 # 2)
              [200; 1; 2; 3; 4; 5; 6; 7; 100; 254; 253; 9; 8; 7; 6; 5])
    as [d | e] eqn:E; [| discriminate Hok].
  exists d. split; [reflexivity |]. split.
  - assert (Hdt : SampleData.dtype_ d = uint8).
    { destruct (init_inv _ _ _ _ _ _ E) as (Hdt & _).
      change (SampleData.dtype_of_string "uint8") with (Some uint8) in Hdt.
      congruence. }
    replace (2 ^ 8) with (2 ^ Z.of_nat (bitwidth (SampleData.dtype_ d)))
      by (rewrite Hdt; reflexivity).
    exact (proj2 (proj2 (proj1 generator_modular_sum _ _ _ _ _ _ _ E))).
  - exact (proj1 (proj2 generator_modular_sum) uint8 [200; 7] [100; 5]
             eq_refl).
Defined.

(** C3, on the notebook's own configuration (256 samples, batches of 16,
    fraction 0.5, hence 16 batches of which 8 are meant for training): the
    training split holds 7 batches, the validation split 8, and the batch
    between them belongs to neither. *)
Theorem notebook_split_drops_a_batch (R : Rng) (s : rng_state)
  (d : SampleData.t) :
  SampleData.init 256 "uint32" 16 (1 # 2) s = Ok d ->
  SampleData.batch_count d = 16%nat
  /\ SampleData.train_batches_of (1 # 2) (SampleData.batch_count d) = 8
  /\ length (SampleData.x_all d) = 16%nat
  /\ length (SampleData.x_train d) = 7%nat
  /\ length (SampleData.x_validation d) = 8%nat
  /\ exists dropped,
       SampleData.x_all d
       = SampleData.x_train d ++ dropped :: SampleData.x_validation d.
Proof.
  intros Hinit.
  destruct (init_inv _ _ _ _ _ _ Hinit)
    as (_ & _ & _ & Hbc & Hxa & _).
  change (256 / 16)%nat with 16%nat in Hbc.
  assert (Htb : SampleData.train_batches_of (1 # 2)
                  (SampleData.batch_count d) = 8)
    by (rewrite Hbc; reflexivity).
  destruct (init_split_shape _ _ _ _ _ _ Hinit) as (Ht & Hv & Hall);
    [rewrite Htb; lia |].
  rewrite Htb in Ht, Hv. rewrite Hbc in Hv.
  split; [exact Hbc |]. split; [exact Htb |].
  split; [congruence |]. split; [lia |]. split; [lia | exact Hall].
Qed.

Lemma notebook_split_drops_a_batch_witness :
  exists d,
    @SampleData.init replay_rng 256 "uint32" 16 (1 # 2) [] = Ok d
    /\ length (SampleData.x_train d) = 7%nat
    /\ length (SampleData.x_validation d) = 8%nat.
Proof.
  assert (Hok : match @SampleData.init replay_rng 256 "uint32" 16 (1 # 2) []
                 with Ok _ => true | Raise _ => false end = true)
    by (vm_compute; reflexivity).
  destruct (@SampleData.init replay_rng 256 "uint32" 16 (1 # 2) [])
    as [d | e] eqn:E; [| discriminate Hok].
  exists d. split; [reflexivity |].
  pose proof (notebook_split_drops_a_batch replay_rng [] d E)
    as (_ & _ & _ & Ht & Hv & _).
  exact (conj Ht Hv).
Defined.

(** C5, what the generator draws: every operand lies in
    [[0, max_value - 1]], so [max_value = 2^w - 1] itself is never
    drawn. *)
Theorem gen_x_never_draws_max (R : Rng) (samples : nat) (dt : dtype)
  (s : rng_state) :
  let x0 := fst (fst (SampleData.gen_x samples dt s)) in
  let x1 := snd (fst (SampleData.gen_x samples dt s)) in
  let max_value := 2 ^ Z.of_nat (bitwidth dt) - 1 in
  Forall (fun v => 0 <= v <= max_value - 1) x0
  /\ Forall (fun v => 0 <= v <= max_value - 1) x1
  /\ ~ In max_value x0 /\ ~ In max_value x1.
Proof.
  cbv zeta.
  pose proof (gen_x_spec samples dt s) as (_ & H0 & H1).
  cbv zeta in H0, H1. rewrite choice_population_max in H0, H1.
  rewrite Forall_forall in H0, H1.
  repeat split.
  - apply Forall_forall. intros v Hv. specialize (H0 v Hv). lia.
  - apply Forall_forall. intros v Hv. specialize (H1 v Hv). lia.
  - intros Hin. specialize (H0 _ Hin). lia.
  - intros Hin. specialize (H1 _ Hin). lia.
Qed.

(** Every value below [max_value] can be drawn. *)
Lemma gen_x_draws_below_max (dt : dtype) (v : Z) :
  0 <= v < 2 ^ Z.of_nat (bitwidth dt) - 1 ->
  fst (fst (@SampleData.gen_x replay_rng 1 dt [v; 0])) = [v].
Proof.
  intros Hv. rewrite <- choice_population_max in Hv.
  unfold SampleData.gen_x, SampleData.x_init.
  cbn [SampleData.random_choice rng_randint replay_rng replay_randint
       fst Numpy.astype map].
  rewrite (Z.mod_small v) by exact Hv.
  rewrite Z.mod_small; [reflexivity |].
  rewrite choice_population_max in Hv. lia.
Qed.

(** ** Recurrent cell *)

Section UnrollFacts.
Context {T : TensorOps}.
Import RnnCell.

Variable W : weights.
Variable initial_state : tensor.

(** The hidden state a step computes from an input and the previous
    state, and the logit it emits. *)
Let hidden (x h : tensor) : tensor :=
  relu (add (add (matmul x (w_i_h W)) (b_h W)) (matmul h (w_h_h W))).
Let logit (h : tensor) : tensor := add (matmul h (w_h_o W)) (b_o W).

(** The state the step at position [t] starts from. *)
Let previous (hs : list tensor) (t : nat) : tensor :=
  match t with O => initial_state | S t' => nth t' hs initial_state end.

Lemma unroll_snoc (xs : list tensor) (x : tensor) :
  unroll W initial_state (xs ++ [x])
  = step W (unroll W initial_state xs) x.
Proof. unfold unroll. rewrite fold_left_app. reflexivity. Qed.

Lemma previous_app (hs : list tensor) (h : tensor) (t : nat) :
  (t <= length hs)%nat -> previous (hs ++ [h]) t = previous hs t.
Proof.
  intros Ht. destruct t as [| t']; [reflexivity |].
  unfold previous. apply app_nth1. lia.
Qed.

Lemma unroll_invariant (xs : list tensor) :
  let u := unroll W initial_state xs in
  length (_h u) = length xs
  /\ length (_logits_series u) = length xs
  /\ h_0 u = previous (_h u) (length xs)
  /\ forall t x_t,
       nth_error xs t = Some x_t ->
       nth_error (_h u) t = Some (hidden x_t (previous (_h u) t))
       /\ nth_error (_logits_series u) t
          = Some (logit (hidden x_t (previous (_h u) t))).
Proof.
  induction xs as [| x xs IH] using rev_ind; cbv zeta.
  - do 3 (split; [reflexivity |]). intros [| t] x_t Hn; discriminate.
  - rewrite unroll_snoc. cbv zeta in IH.
    set (u := unroll W initial_state xs) in *.
    destruct IH as (Hlh & Hll & Hh0 & Hsteps).
    cbn [step _h _logits_series h_0].
    rewrite !length_app. cbn [length].
    split; [lia |]. split; [lia |]. split.
    + unfold previous at 1.
      replace (length xs + 1)%nat with (S (length xs)) by lia.
      rewrite <- Hlh, nth_middle. reflexivity.
    + intros t x_t Hn.
      destruct (Nat.lt_ge_cases t (length xs)) as [Hlt | Hge].
      * rewrite nth_error_app1 in Hn by exact Hlt.
        destruct (Hsteps t x_t Hn) as [Hht Hlt'].
        rewrite previous_app by lia.
        rewrite !nth_error_app1 by lia. auto.
      * assert (t = length xs).
        { assert (Hs : nth_error (xs ++ [x]) t <> None) by congruence.
          apply nth_error_Some in Hs. rewrite length_app in Hs.
          cbn [length] in Hs. lia. }
        subst t. rewrite nth_error_app2, Nat.sub_diag in Hn by lia.
        injection Hn as <-.
        rewrite previous_app, <- Hh0 by lia.
        split; rewrite nth_error_app2 by lia.
        -- replace (length xs - length (_h u))%nat with 0%nat by lia.
           reflexivity.
        -- replace (length xs - length (_logits_series u))%nat
             with 0%nat by lia.
           reflexivity.
Qed.

(** Both realizations emit one prediction per timestep. *)
Lemma dynamic_rnn_length (cell : tensor -> tensor -> tensor)
  (state : tensor) (xs : list tensor) :
  length (dynamic_rnn cell state xs) = length xs.
Proof.
  revert state; induction xs as [| x xs IH]; intros state;
    cbn [dynamic_rnn length]; [reflexivity | rewrite IH; reflexivity].
Qed.

End UnrollFacts.

Lemma predictions_series_length {T : TensorOps} (rnn : RnnCell.t)
  (initial_state : tensor) (xs : list tensor) :
  length (RnnCell.predictions_series rnn initial_state xs) = length xs.
Proof.
  unfold RnnCell.predictions_series, RnnCell.logits_series.
  rewrite length_map. destruct (RnnCell.realization_ rnn).
  - apply (unroll_invariant (RnnCell.weights_ rnn) initial_state xs).
  - rewrite length_map. apply dynamic_rnn_length.
Qed.

(** C6. In the manual unroll, at every timestep [t] of the input sequence
    the hidden state is [relu ((x_t W_ih + b_h) + h_prev W_hh)], where
    [h_prev] is the hidden state of step [t - 1], or the supplied initial
    state at [t = 0]; the logit of the step is [h_t W_ho + b_o] and the
    prediction its sigmoid.  There is one hidden state and one prediction
    per timestep. *)
Theorem manual_unroll_recurrence {T : TensorOps} (rnn : RnnCell.t)
  (initial_state : tensor) (x_series : list tensor) (t : nat)
  (x_t : tensor) :
  RnnCell.realization_ rnn = RnnCell.Manual ->
  nth_error x_series t = Some x_t ->
  let W := RnnCell.weights_ rnn in
  let u := RnnCell.unroll W initial_state x_series in
  let h_prev :=
    match t with
    | O => initial_state
    | S t' => nth t' (RnnCell._h u) initial_state
    end in
  let h_t :=
    relu (add (add (matmul x_t (RnnCell.w_i_h W)) (RnnCell.b_h W))
            (matmul h_prev (RnnCell.w_h_h W))) in
  let o_t := add (matmul h_t (RnnCell.w_h_o W)) (RnnCell.b_o W) in
  nth_error (RnnCell._h u) t = Some h_t
  /\ nth_error (RnnCell.logits_series rnn initial_state x_series) t
     = Some o_t
  /\ nth_error (RnnCell.predictions_series rnn initial_state x_series) t
     = Some (sigmoid o_t)
  /\ length (RnnCell._h u) = length x_series
  /\ length (RnnCell.predictions_series rnn initial_state x_series)
     = length x_series.
Proof.
  intros Hmanual Hn. cbv zeta.
  pose proof (unroll_invariant (RnnCell.weights_ rnn) initial_state
                x_series) as (Hlh & _ & _ & Hsteps).
  destruct (Hsteps t x_t Hn) as [Hh Hl].
  unfold RnnCell.predictions_series, RnnCell.logits_series.
  rewrite Hmanual, length_map.
  split; [exact Hh |]. split; [exact Hl |].
  split; [| split; [exact Hlh |]].
  - rewrite nth_error_map, Hl. reflexivity.
  - apply (unroll_invariant (RnnCell.weights_ rnn) initial_state x_series).
Qed.

(** The manual unroll is the state sequence of its own step function:
    the library branch computes the same logits when, and as far as, its
    cell applies that step. *)
Lemma fold_step_states {T : TensorOps} (W : RnnCell.weights)
  (xs : list tensor) (st : RnnCell.unrolled) :
  let hs :=
    RnnCell.dynamic_rnn
      (fun x h =>
         relu (add (add (matmul x (RnnCell.w_i_h W)) (RnnCell.b_h W))
                 (matmul h (RnnCell.w_h_h W))))
      (RnnCell.h_0 st) xs in
  RnnCell._h (fold_left (RnnCell.step W) xs st) = RnnCell._h st ++ hs
  /\ RnnCell._logits_series (fold_left (RnnCell.step W) xs st)
     = RnnCell._logits_series st
       ++ map (fun h => add (matmul h (RnnCell.w_h_o W)) (RnnCell.b_o W))
            hs.
Proof.
  revert st; induction xs as [| x xs IH]; intros st; cbv zeta.
  - cbn [fold_left RnnCell.dynamic_rnn map]. rewrite !app_nil_r. auto.
  - cbn [fold_left RnnCell.dynamic_rnn map].
    destruct (IH (RnnCell.step W st x)) as [Hh Hl].
    rewrite Hh, Hl. cbn [RnnCell.step RnnCell._h RnnCell._logits_series
                           RnnCell.h_0].
    rewrite <- !app_assoc. auto.
Qed.

Lemma manual_logits_as_dynamic_rnn {T : TensorOps} (rnn : RnnCell.t)
  (initial_state : tensor) (xs : list tensor) :
  RnnCell.realization_ rnn = RnnCell.Manual ->
  let W := RnnCell.weights_ rnn in
  RnnCell.logits_series rnn initial_state xs
  = RnnCell.logits_series
      {| RnnCell.bitwidth_ := RnnCell.bitwidth_ rnn;
         RnnCell.weights_ := W;
         RnnCell.realization_ :=
           RnnCell.TfRnnApi
             (fun x h =>
                relu (add (add (matmul x (RnnCell.w_i_h W))
                             (RnnCell.b_h W))
                        (matmul h (RnnCell.w_h_h W)))) |}
      initial_state xs.
Proof.
  intros Hm. cbv zeta. unfold RnnCell.logits_series.
  rewrite Hm. cbn [RnnCell.realization_ RnnCell.weights_].
  unfold RnnCell.unroll.
  destruct (fold_step_states (RnnCell.weights_ rnn) xs
              {| RnnCell.h_0 := initial_state; RnnCell._h := [];
                 RnnCell._logits_series := [] |}) as [_ Hl].
  exact Hl.
Qed.

Lemma manual_unroll_recurrence_witness :
  nth_error (map (@of_bits IntTensor.ops) [(1, 1); (0, 1)]) 1
  = Some [[0; 1]]
  /\ nth_error
       (@RnnCell.predictions_series IntTensor.ops (IntTensor.adder 2)
          (@zeros_state IntTensor.ops)
          (map (@of_bits IntTensor.ops) [(1, 1); (0, 1)])) 1
     = Some [[0]].
Proof.
  split; [reflexivity |].
  exact (proj1 (proj2 (proj2
    (@manual_unroll_recurrence IntTensor.ops (IntTensor.adder 2)
       (@zeros_state IntTensor.ops)
       (map (@of_bits IntTensor.ops) [(1, 1); (0, 1)]) 1%nat [[0; 1]]
       eq_refl eq_refl)))).
Defined.

(** The integer instance adds: the notebook's sample run. *)
Example adder_sample_run :
  @RNNCalc.calculate IntTensor.ops (IntTensor.calc uint32) 45246 765747
  = ([EvPrint "x0 int val: {}" [VInt 45246];
      EvPrint "x0 bin val: {}"
        [VBits [0;1;1;1;1;1;0;1;0;0;0;0;1;1;0;1;
                0;0;0;0;0;0;0;0;0;0;0;0;0;0;0;0]];
      EvPrint "x0 int val: {}" [VInt 765747];
      EvPrint "x0 bin val: {}"
        [VBits [1;1;0;0;1;1;0;0;1;1;1;1;0;1;0;1;
                1;1;0;1;0;0;0;0;0;0;0;0;0;0;0;0]];
      EvSessRun
        (combine [0;1;1;1;1;1;0;1;0;0;0;0;1;1;0;1;
                  0;0;0;0;0;0;0;0;0;0;0;0;0;0;0;0]
                 [1;1;0;0;1;1;0;0;1;1;1;1;0;1;0;1;
                  1;1;0;1;0;0;0;0;0;0;0;0;0;0;0;0]);
      EvPrint "y  int val: {} and correct answer is {}"
        [VInt 810993; VInt 810993];
      EvPrint "y  bin val: {}"
        [VBits [1;0;0;0;1;1;1;1;1;1;1;1;1;0;1;0;
                0;0;1;1;0;0;0;0;0;0;0;0;0;0;0;0]]],
     Ok tt).
Proof. vm_compute. reflexivity. Qed.

(** ** Calculator wrapper *)

Section StringFacts.

Lemma prefix_iff (s1 s2 : string) :
  String.prefix s1 s2 = true <-> exists post, s2 = (s1 ++ post)%string.
Proof.
  revert s2; induction s1 as [| a s1 IH]; intros s2.
  - split; [intros _; exists s2; reflexivity |].
    intros _. destruct s2; reflexivity.
  - destruct s2 as [| b s2]; cbn [String.prefix].
    + split; [discriminate | intros [post H]; discriminate].
    + destruct (ascii_dec a b) as [-> | Hab].
      * rewrite IH. split; intros [post H]; exists post.
        -- cbn [String.append]. congruence.
        -- cbn [String.append] in H. congruence.
      * split; [discriminate |].
        intros [post H]. cbn [String.append] in H. congruence.
Qed.

(** The model of [in] finds exactly the contiguous occurrences. *)
Lemma str_in_iff (sub s : string) :
  Py.str_in sub s = true
  <-> exists pre post, s = (pre ++ sub ++ post)%string.
Proof.
  induction s as [| c s IH]; cbn [Py.str_in]; rewrite orb_true_iff.
  - rewrite prefix_iff. split.
    + intros [[post H] | H]; [| discriminate].
      exists EmptyString, post. exact H.
    + intros [pre [post H]]. left.
      destruct pre; [exists post; exact H | discriminate].
  - rewrite prefix_iff, IH. split.
    + intros [[post H] | [pre [post H]]].
      * exists EmptyString, post. exact H.
      * exists (String c pre), post. cbn [String.append]. congruence.
    + intros [pre [post H]]. destruct pre as [| c' pre].
      * left. exists post. exact H.
      * right. exists pre, post. cbn [String.append] in H. congruence.
Qed.

Lemma stops_iff (reply : string) :
  RNNCalc.stops reply = false
  <-> reply = ""%string \/ reply = "Y"%string \/ reply = "y"%string
      \/ reply = "Yy"%string.
Proof.
  unfold RNNCalc.stops. rewrite negb_false_iff. split.
  - destruct reply as [| c1 [| c2 [| c3 r]]].
    + auto.
    + cbn [Py.str_in String.prefix].
      destruct (ascii_dec c1 "Y") as [-> | _]; [auto |].
      destruct (ascii_dec c1 "y") as [-> | _]; [auto | discriminate].
    + cbn [Py.str_in String.prefix].
      destruct (ascii_dec c1 "Y") as [-> | _].
      * destruct (ascii_dec c2 "y") as [-> | _]; [auto 6 |].
        destruct (ascii_dec "Y" "y"); discriminate.
      * destruct (ascii_dec c1 "y"); discriminate.
    + cbn [Py.str_in String.prefix].
      destruct (ascii_dec c1 "Y"), (ascii_dec c2 "y"),
        (ascii_dec c1 "y"); discriminate.
  - intros [-> | [-> | [-> | ->]]]; reflexivity.
Qed.

End StringFacts.

Section CalcFacts.
Context {T : TensorOps}.
Import RNNCalc.


Lemma check_input_valid (self : t) (input_str r : string)
  (ev : list event) (v : Z) :
  _check_input self input_str r = (ev, Some v) ->
  ev = [EvInput input_str [VInt (max_val self)]]
  /\ Py.int_of_string r = Some v /\ 0 <= v <= max_val self.
Proof.
  unfold _check_input.
  destruct (Py.int_of_string r) as [w |]; [| discriminate].
  destruct (w <? 0) eqn:Hneg; [discriminate |].
  destruct (w >? max_val self) eqn:Hbig; [discriminate |].
  intros [= <- <-]. apply Z.ltb_ge in Hneg.
  rewrite Z.gtb_ltb in Hbig. apply Z.ltb_ge in Hbig. auto.
Qed.


(** One pass of the loop after the two operand prompts. *)
Lemma run_unfold (self : t) (r0 r1 : string) (replies2 : list string) :
  run self (r0 :: r1 :: replies2)
  = let '(ev0, x0) := _check_input self ask_x0 r0 in
    let '(ev1, x1) := _check_input self ask_x1 r1 in
    match round self x0 x1 with
    | (evc, Raise e) => (ev0 ++ ev1 ++ evc, Raised e)
    | (evc, Ok _) =>
        match replies2 with
        | [] => (ev0 ++ ev1 ++ evc ++ [ask_again], Raised EOFError)
        | user_input :: rest =>
            if stops user_input
            then (ev0 ++ ev1 ++ evc ++ [ask_again], Finished)
            else (ev0 ++ ev1 ++ evc ++ [ask_again] ++ fst (run self rest),
                  snd (run self rest))
        end
    end.
Proof.
  cbn [run].
  destruct (_check_input self ask_x0 r0) as [ev0 x0].
  destruct (_check_input self ask_x1 r1) as [ev1 x1].
  destruct (round self x0 x1) as [evc [[] | e]]; [| reflexivity].
  destruct replies2 as [| user_input rest]; [reflexivity |].
  destruct (stops user_input); [reflexivity |].
  destruct (run self rest); reflexivity.
Qed.

End CalcFacts.


Section CalcClaims.
Context {T : TensorOps}.
Import RNNCalc.

Lemma bits2arr_32 (l : list Z) :
  length l = 32%nat -> exists y, bits2arr l uint32 = Some [y].
Proof.
  intros Hl. do 32 (destruct l as [| ? l]; [discriminate |]).
  destruct l; [| discriminate].
  unfold bits2arr, Numpy.reshape2. decode_explicit. eauto.
Qed.

Lemma fed_sequence_length (dt : dtype) (x0 x1 : Z) :
  length (combine (arr2inbits dt [x0]) (arr2inbits dt [x1])) = bitwidth dt.
Proof.
  rewrite length_combine, !arr2inbits_length. cbn [length]. lia.
Qed.

(** The shape of a round that completes. *)
Lemma calculate_ok (self : t) (x0 x1 : Z) (evs : list event) :
  calculate self x0 x1 = (evs, Ok tt) ->
  let x := combine (arr2inbits (dtype_ self) [x0])
             (arr2inbits (dtype_ self) [x1]) in
  exists y cleaned,
    length x = RnnCell.bitwidth_ (rnn self)
    /\ length cleaned = 32%nat
    /\ evs = [EvPrint "x0 int val: {}" [VInt x0];
              EvPrint "x0 bin val: {}"
                [VBits (arr2inbits (dtype_ self) [x0])];
              EvPrint "x0 int val: {}" [VInt x1];
              EvPrint "x0 bin val: {}"
                [VBits (arr2inbits (dtype_ self) [x1])]]
             ++ [EvSessRun x;
                 EvPrint "y  int val: {} and correct answer is {}"
                   [VInt y; VInt (x0 + x1)];
                 EvPrint "y  bin val: {}" [VBits cleaned]].
Proof.
  unfold calculate. cbv zeta.
  set (x := combine _ _).
  destruct (length x =? RnnCell.bitwidth_ (rnn self))%nat eqn:Hfeed;
    cbn [negb]; [| discriminate].
  unfold Numpy.reshape1.
  destruct (length (map around _) =? 32)%nat eqn:Hshape; [| discriminate].
  destruct (bits2arr _ _) as [[| y ys] |]; try discriminate.
  intros [= <-]. do 2 eexists.
  split; [apply Nat.eqb_eq, Hfeed |]. split; [| reflexivity].
  unfold Numpy.astype. rewrite length_map. apply Nat.eqb_eq, Hshape.
Qed.

End CalcClaims.

(** C9. The rounded predictions are reshaped to length 32 whatever the
    dtype.  A round on two accepted operands completes only if the
    configured width and the width of the model are both 32; when the
    model was built for the configured width it emits that many
    predictions, the round completes exactly for [uint32], and for [uint8]
    and [uint16] it ends in the reshape's [ValueError] right after the
    model run, before any prediction is printed. *)
Theorem calculation_completes_only_at_width_32 {T : TensorOps}
  (self : RNNCalc.t) (x0 x1 : Z) :
  let dt := RNNCalc.dtype_ self in
  let x := combine (arr2inbits dt [x0]) (arr2inbits dt [x1]) in
  let predictions :=
    RnnCell.predictions_series (RNNCalc.rnn self) zeros_state
      (map of_bits x) in
  (snd (RNNCalc.calculate self x0 x1) = Ok tt ->
   bitwidth dt = 32%nat /\ RnnCell.bitwidth_ (RNNCalc.rnn self) = 32%nat)
  /\ (RnnCell.bitwidth_ (RNNCalc.rnn self) = bitwidth dt ->
      length predictions = bitwidth dt
      /\ (Numpy.reshape1 (map around predictions) 32 <> None
          <-> dt = uint32)
      /\ (snd (RNNCalc.calculate self x0 x1) = Ok tt <-> dt = uint32)
      /\ (dt <> uint32 ->
          exists shown,
            existsb is_calculation shown = false
            /\ RNNCalc.calculate self x0 x1
               = (shown ++ [EvSessRun x], Raise ValueError))).
Proof.
  cbv zeta.
  set (dt := RNNCalc.dtype_ self).
  set (x := combine (arr2inbits dt [x0]) (arr2inbits dt [x1])).
  pose proof (fed_sequence_length dt x0 x1) as Hx. fold x in Hx.
  assert (Hp : length (map around
                 (RnnCell.predictions_series (RNNCalc.rnn self)
                    zeros_state (map of_bits x))) = bitwidth dt)
    by (rewrite length_map, predictions_series_length, length_map;
        exact Hx).
  split.
  - destruct (RNNCalc.calculate self x0 x1) as [evs r] eqn:Hc.
    cbn [snd]. intros ->.
    unfold RNNCalc.calculate in Hc. cbv zeta in Hc.
    fold dt in Hc. fold x in Hc.
    destruct (length x =? RnnCell.bitwidth_ (RNNCalc.rnn self))%nat
      eqn:Hfeed; cbn [negb] in Hc; [| discriminate].
    unfold Numpy.reshape1 in Hc. rewrite Hp in Hc.
    destruct (bitwidth dt =? 32)%nat eqn:Hshape; [| discriminate].
    apply Nat.eqb_eq in Hfeed, Hshape. split; congruence.
  - intros Hmodel.
    assert (Hcases : forall r, (dt = uint32 -> r) ->
                               (dt <> uint32 -> bitwidth dt <> 32%nat -> r)
                               -> r).
    { intros r H32 Hother. destruct dt eqn:E;
        [apply Hother | apply Hother | apply H32];
        try discriminate; reflexivity. }
    split; [rewrite length_map in Hp; exact Hp |].
    unfold RNNCalc.calculate. cbv zeta. fold dt. fold x.
    rewrite Hx, Hmodel, Nat.eqb_refl. cbn [negb].
    unfold Numpy.reshape1. rewrite Hp.
    apply Hcases.
    + intros E. rewrite E. cbn [bitwidth Nat.eqb].
      destruct (bits2arr_32
                  (Numpy.astype uint32
                     (map around
                        (RnnCell.predictions_series (RNNCalc.rnn self)
                           zeros_state (map of_bits x)))))
        as [y Hy].
      { unfold Numpy.astype. rewrite length_map, Hp, E. reflexivity. }
      rewrite Hy. cbn [snd].
      repeat split; try discriminate; try reflexivity.
      intros Hne; contradiction.
    + intros Hne Hw. apply Nat.eqb_neq in Hw. rewrite Hw. cbn [snd].
      split; [split; [intros H; contradiction | intros E; contradiction] |].
      split; [split; [discriminate | intros E; contradiction] |].
      intros _. eexists. split; [| reflexivity]. reflexivity.
Qed.

(** C7, what the calculator shows: a round that completes prints the
    decoded prediction next to [x0 + x1], the plain integer sum, with no
    reduction modulo [2^width]. *)
Theorem correct_answer_is_plain_sum {T : TensorOps} (self : RNNCalc.t)
  (x0 x1 : Z) (evs : list event) :
  RNNCalc.calculate self x0 x1 = (evs, Ok tt) ->
  exists shown y cleaned,
    evs = shown ++
          [EvSessRun (combine (arr2inbits (RNNCalc.dtype_ self) [x0])
                        (arr2inbits (RNNCalc.dtype_ self) [x1]));
           EvPrint "y  int val: {} and correct answer is {}"
             [VInt y; VInt (x0 + x1)];
           EvPrint "y  bin val: {}" [VBits cleaned]]
    /\ existsb is_calculation shown = false.
Proof.
  intros Hc. destruct (calculate_ok self x0 x1 evs Hc)
    as (y & cleaned & _ & _ & ->).
  eexists. exists y, cleaned. split; reflexivity.
Qed.

(** C10. The loop stops exactly when the reply does not occur in ["Yy"]:
    the empty reply, ["Y"], ["y"] and ["Yy"] continue, every other reply,
    ["yes"] among them, stops; after a round that raised nothing the run
    ends or goes on to the next round accordingly. *)
Theorem continuation_test {T : TensorOps} :
  (forall reply,
      RNNCalc.stops reply = true
      <-> ~ exists pre post, "Yy"%string = (pre ++ reply ++ post)%string)
  /\ (forall reply,
         RNNCalc.stops reply = false
         <-> reply = ""%string \/ reply = "Y"%string
             \/ reply = "y"%string \/ reply = "Yy"%string)
  /\ RNNCalc.stops "yes" = true
  /\ (forall (self : RNNCalc.t) r0 r1 reply rest evc,
         let c0 := RNNCalc._check_input self RNNCalc.ask_x0 r0 in
         let c1 := RNNCalc._check_input self RNNCalc.ask_x1 r1 in
         RNNCalc.round self (snd c0) (snd c1) = (evc, Ok tt) ->
         RNNCalc.run self (r0 :: r1 :: reply :: rest)
         = if RNNCalc.stops reply
           then (fst c0 ++ fst c1 ++ evc ++ [RNNCalc.ask_again], Finished)
           else (fst c0 ++ fst c1 ++ evc ++ [RNNCalc.ask_again]
                 ++ fst (RNNCalc.run self rest),
                 snd (RNNCalc.run self rest))).
Proof.
  split; [| split; [| split]].
  - intros reply. unfold RNNCalc.stops.
    rewrite negb_true_iff, <- not_true_iff_false, str_in_iff. reflexivity.
  - apply stops_iff.
  - reflexivity.
  - intros self r0 r1 reply rest evc. cbv zeta. intros Hround.
    rewrite run_unfold.
    destruct (RNNCalc._check_input self RNNCalc.ask_x0 r0) as [ev0 v0].
    destruct (RNNCalc._check_input self RNNCalc.ask_x1 r1) as [ev1 v1].
    cbn [fst snd] in *. rewrite Hround. reflexivity.
Qed.

Section CalcRuns.
Local Open Scope string_scope.


Lemma calculation_completes_only_at_width_32_witness :
  snd (@RNNCalc.calculate IntTensor.ops (IntTensor.calc uint32)
         45246 765747) = Ok tt
  /\ exists shown,
       @RNNCalc.calculate IntTensor.ops (IntTensor.calc uint8) 200 100
       = ((shown ++ [EvSessRun (combine (arr2inbits uint8 [200])
                                  (arr2inbits uint8 [100]))])%list,
          Raise ValueError).
Proof.
  split.
  - exact (proj2 (proj1 (proj2 (proj2
      (proj2 (@calculation_completes_only_at_width_32 IntTensor.ops
                (IntTensor.calc uint32) 45246 765747) eq_refl))))
      eq_refl).
  - destruct (proj2 (proj2 (proj2
      (proj2 (@calculation_completes_only_at_width_32 IntTensor.ops
                (IntTensor.calc uint8) 200 100) eq_refl)))
      ltac:(discriminate)) as (shown & _ & Hc).
    exists shown. exact Hc.
Defined.

(** The round on which the shown sum and the modular sum part ways. *)
Example overflow_round_shows_plain_sum :
  @RNNCalc.calculate IntTensor.ops (IntTensor.calc uint32) 4294967295 1
  = ([EvPrint "x0 int val: {}" [VInt 4294967295];
      EvPrint "x0 bin val: {}" [VBits (repeat 1 32)];
      EvPrint "x0 int val: {}" [VInt 1];
      EvPrint "x0 bin val: {}" [VBits (1 :: repeat 0 31)];
      EvSessRun (combine (repeat 1 32) (1 :: repeat 0 31));
      EvPrint "y  int val: {} and correct answer is {}"
        [VInt 0; VInt 4294967296];
      EvPrint "y  bin val: {}" [VBits (repeat 0 32)]],
     Ok tt)
  /\ (4294967295 + 1) mod 2 ^ 32 = 0.
Proof. split; [vm_compute; reflexivity | reflexivity]. Qed.

Lemma correct_answer_is_plain_sum_witness :
  exists evs,
    @RNNCalc.calculate IntTensor.ops (IntTensor.calc uint32) 4294967295 1
    = (evs, Ok tt)
    /\ (exists shown y cleaned,
          evs = (shown ++
                 [EvSessRun (combine (arr2inbits uint32 [4294967295])
                               (arr2inbits uint32 [1]));
                  EvPrint "y  int val: {} and correct answer is {}"
                    [VInt y; VInt (4294967295 + 1)];
                  EvPrint "y  bin val: {}" [VBits cleaned]])%list
          /\ existsb is_calculation shown = false)
    /\ 4294967295 + 1 <> (4294967295 + 1) mod 2 ^ 32.
Proof.
  assert (Hr : snd (@RNNCalc.calculate IntTensor.ops (IntTensor.calc uint32)
                      4294967295 1) = Ok tt) by (vm_compute; reflexivity).
  destruct (@RNNCalc.calculate IntTensor.ops (IntTensor.calc uint32)
              4294967295 1) as [evs r] eqn:E.
  cbn [snd] in Hr. subst r.
  exists evs. split; [reflexivity |]. split.
  - exact (@correct_answer_is_plain_sum IntTensor.ops
             (IntTensor.calc uint32) 4294967295 1 evs E).
  - discriminate.
Defined.

Lemma continuation_test_witness :
  @RNNCalc.run IntTensor.ops (IntTensor.calc uint32)
    ["x"; "2"; ""; "-4"; "2"; "yes"; "3"]
  = ([EvInput RNNCalc.ask_x0 [VInt 4294967295];
      EvPrint "Not an integer!" [];
      EvInput RNNCalc.ask_x1 [VInt 4294967295];
      RNNCalc.ask_again;
      EvInput RNNCalc.ask_x0 [VInt 4294967295];
      EvPrint "Input must not be less than 0" [];
      EvInput RNNCalc.ask_x1 [VInt 4294967295];
      RNNCalc.ask_again],
     Finished).
Proof.
  rewrite (proj2 (proj2 (proj2 (@continuation_test IntTensor.ops)))
             (IntTensor.calc uint32) "x" "2" "" ["-4"; "2"; "yes"; "3"] []
             eq_refl).
  vm_compute. reflexivity.
Defined.

End CalcRuns.

(** * Further properties of the code *)

(** ** Bit codec on whole arrays *)

Lemma arr2inbits_app (dt : dtype) (xs ys : list Z) :
  arr2inbits dt (xs ++ ys) = arr2inbits dt ys ++ arr2inbits dt xs.
Proof.
  unfold arr2inbits, Numpy.view_uint8_be, Numpy.unpackbits.
  rewrite !flat_map_app, rev_app_distr. reflexivity.
Qed.

Lemma arr2inbits_flat (dt : dtype) (xs : list Z) :
  arr2inbits dt xs = flat_map (fun v => arr2inbits dt [v]) (rev xs).
Proof.
  induction xs as [| x xs IH]; [reflexivity |].
  change (x :: xs) with ([x] ++ xs).
  rewrite arr2inbits_app, IH, rev_app_distr, flat_map_app.
  cbn [rev app flat_map]. rewrite app_nil_r. reflexivity.
Qed.

(** X1. [arr2inbits] flips the whole bit array, so the elements come out
    in reverse order: the result is the concatenation, from the last
    element to the first, of each element's [w] bits, least significant
    first.  It has [w] entries per element, each 0 or 1. *)
Theorem arr2inbits_reverses_elements (dt : dtype) (xs : list Z) :
  arr2inbits dt xs
  = flat_map
      (fun v => map (fun i => Z.b2z (Z.testbit v (Z.of_nat i)))
                  (seq 0 (bitwidth dt)))
      (rev xs)
  /\ length (arr2inbits dt xs) = (length xs * bitwidth dt)%nat
  /\ Forall is_bit (arr2inbits dt xs).
Proof.
  split; [| split].
  - rewrite arr2inbits_flat. apply flat_map_ext. intros v.
    apply arr2inbits_lsb_first.
  - apply arr2inbits_length.
  - apply arr2inbits_is_bit.
Qed.

(** X2. Decoding an encoded array of any length gives back the array, in
    its original order: the two flips cancel. *)
Theorem array_round_trip (dt : dtype) (xs : list Z) :
  Forall (in_range dt) xs -> bits2arr (arr2inbits dt xs) dt = Some xs.
Proof. apply bits2arr_arr2inbits. Qed.

Lemma array_round_trip_witness :
  Forall (in_range uint16) [3; 5; 65535; 0]
  /\ bits2arr (arr2inbits uint16 [3; 5; 65535; 0]) uint16
     = Some [3; 5; 65535; 0].
Proof.
  assert (H : Forall (in_range uint16) [3; 5; 65535; 0])
    by (repeat constructor; unfold in_range; simpl; lia).
  split; [exact H | exact (array_round_trip uint16 _ H)].
Defined.

(** ** When decoding raises *)

(** Induction over a list in groups of eight. *)
Lemma list_ind8 {A} (P : list A -> Prop) :
  (forall l, (length l < 8)%nat -> P l) ->
  (forall b7 b6 b5 b4 b3 b2 b1 b0 tl,
      P tl -> P (b7 :: b6 :: b5 :: b4 :: b3 :: b2 :: b1 :: b0 :: tl)) ->
  forall l, P l.
Proof.
  intros Hshort Hstep l.
  assert (H : forall n l', (length l' <= n)%nat -> P l').
  { induction n as [| n IH]; intros l' Hl.
    - apply Hshort. lia.
    - destruct l' as [| b7 [| b6 [| b5 [| b4 [| b3 [| b2 [| b1
                      [| b0 tl]]]]]]]];
        try (apply Hshort; cbn [length]; lia).
      apply Hstep, IH. cbn [length] in Hl. lia. }
  apply (H (length l)). lia.
Qed.

(** A list shorter than eight, spelled out. *)
Tactic Notation "spell_short" ident(l) ident(H) :=
  repeat (destruct l as [| ? l];
          [| cbn [length] in H; try (exfalso; lia)]).

Lemma packbits_length (l : list Z) :
  length (Numpy.packbits l) = ((length l + 7) / 8)%nat.
Proof.
  induction l as [s Hs | b7 b6 b5 b4 b3 b2 b1 b0 tl IH] using list_ind8.
  - spell_short s Hs; reflexivity.
  - cbn [Numpy.packbits length]. rewrite IH.
    replace (S (S (S (S (S (S (S (S (length tl)))))))) + 7)%nat
      with (1 * 8 + (length tl + 7))%nat by lia.
    rewrite Nat.div_add_l by lia. reflexivity.
Qed.

Lemma packbits_range (l : list Z) :
  Forall (fun b => 0 <= b < 256) (Numpy.packbits l).
Proof.
  induction l as [s Hs | b7 b6 b5 b4 b3 b2 b1 b0 tl IH] using list_ind8.
  - spell_short s Hs; cbn [Numpy.packbits app repeat firstn];
      try constructor; try constructor; apply pack_byte_range.
  - cbn [Numpy.packbits]. constructor; [apply pack_byte_range | exact IH].
Qed.

Lemma Forall_firstn_skipn {A} (Q : A -> Prop) (n : nat) (l : list A) :
  Forall Q l -> Forall Q (firstn n l) /\ Forall Q (skipn n l).
Proof.
  intros HQ. rewrite <- (firstn_skipn n l) in HQ.
  apply Forall_app in HQ. exact HQ.
Qed.

Lemma rows_of_Forall {A} (Q : A -> Prop) (rows cols : nat) (l : list A) :
  Forall Q l -> length l = (rows * cols)%nat ->
  Forall (fun row => length row = cols /\ Forall Q row)
    (Numpy.rows_of rows cols l).
Proof.
  revert l; induction rows as [| r IH]; intros l HQ Hl;
    cbn [Numpy.rows_of]; constructor.
  - split.
    + rewrite length_firstn. lia.
    + apply (Forall_firstn_skipn Q cols l HQ).
  - apply IH; [apply (Forall_firstn_skipn Q cols l HQ)
              | rewrite length_skipn; lia].
Qed.

Lemma weighted_range2 (row : list Z) :
  length row = 2%nat -> Forall (fun b => 0 <= b < 256) row ->
  0 <= Numpy.weighted [2 ^ 8; 1] row < 2 ^ 16.
Proof.
  intros Hl Hr. destruct row as [| b1 [| b0 [| ? ?]]]; try discriminate.
  inversion Hr as [| ? ? H1 Hr']; subst.
  inversion Hr' as [| ? ? H0 _]; subst.
  cbn [Numpy.weighted]. change (2 ^ 8) with 256.
  change (2 ^ 16) with 65536. lia.
Qed.

Lemma weighted_range4 (row : list Z) :
  length row = 4%nat -> Forall (fun b => 0 <= b < 256) row ->
  0 <= Numpy.weighted [2 ^ 24; 2 ^ 16; 2 ^ 8; 1] row < 2 ^ 32.
Proof.
  intros Hl Hr.
  destruct row as [| b3 [| b2 [| b1 [| b0 [| ? ?]]]]]; try discriminate.
  inversion Hr as [| ? ? H3 Hr3]; subst.
  inversion Hr3 as [| ? ? H2 Hr2]; subst.
  inversion Hr2 as [| ? ? H1 Hr1]; subst.
  inversion Hr1 as [| ? ? H0 _]; subst.
  cbn [Numpy.weighted]. change (2 ^ 24) with 16777216.
  change (2 ^ 16) with 65536. change (2 ^ 8) with 256.
  change (2 ^ 32) with 4294967296. lia.
Qed.

Lemma reshape2_bytes (l : list Z) (k : nat) :
  (0 < k)%nat ->
  (Numpy.reshape2 l (length l / k) k = None
   <-> (length l mod k <> 0)%nat)
  /\ (forall rows, Numpy.reshape2 l (length l / k) k = Some rows ->
        rows = Numpy.rows_of (length l / k) k l
        /\ length l = (length l / k * k)%nat).
Proof.
  intros Hk. unfold Numpy.reshape2.
  pose proof (Nat.div_mod_eq (length l) k) as Hdm.
  destruct (length l =? length l / k * k)%nat eqn:E.
  - apply Nat.eqb_eq in E. split.
    + split; [discriminate | intros Hm; exfalso; apply Hm; lia].
    + intros rows [= <-]. auto.
  - apply Nat.eqb_neq in E. split.
    + split; [intros _; lia | reflexivity].
    + discriminate.
Qed.

(** How [bits2arr] ends, by the number of bytes it packs. *)
Lemma bits2arr_outcome (dt : dtype) (b : list Z) :
  let bytes := ((length b + 7) / 8)%nat in
  (bits2arr b dt = None <-> (bytes mod itemsize dt <> 0)%nat)
  /\ (forall ys, bits2arr b dt = Some ys ->
        length ys = (bytes / itemsize dt)%nat
        /\ Forall (in_range dt) ys).
Proof.
  cbv zeta. unfold bits2arr.
  pose proof (packbits_length (rev b)) as Hlen.
  rewrite length_rev in Hlen.
  pose proof (packbits_range (rev b)) as Hrange.
  set (x_int := Numpy.packbits (rev b)) in *.
  destruct dt; cbn [itemsize].
  - split.
    + split; [discriminate |]. rewrite Nat.mod_1_r. congruence.
    + intros ys [= <-]. rewrite Nat.div_1_r. split; [exact Hlen |].
      revert Hrange. apply Forall_impl. intros v Hv. exact Hv.
  - destruct (reshape2_bytes x_int 2 ltac:(lia)) as [Hnone Hsome].
    rewrite <- Hlen.
    destruct (Numpy.reshape2 x_int (length x_int / 2) 2) as [rows |].
    + split; [split; [discriminate | intros H; apply Hnone in H;
                                      discriminate] |].
      intros ys [= <-]. destruct (Hsome rows eq_refl) as [-> Hl].
      rewrite length_map, rows_of_length. split; [reflexivity |].
      apply Forall_map.
      pose proof (rows_of_Forall _ _ _ _ Hrange Hl) as Hrows.
      revert Hrows. apply Forall_impl. intros row [H2 Hb].
      apply weighted_range2; assumption.
    + split; [split; [intros _; apply Hnone; reflexivity | reflexivity] |].
      discriminate.
  - destruct (reshape2_bytes x_int 4 ltac:(lia)) as [Hnone Hsome].
    rewrite <- Hlen.
    destruct (Numpy.reshape2 x_int (length x_int / 4) 4) as [rows |].
    + split; [split; [discriminate | intros H; apply Hnone in H;
                                      discriminate] |].
      intros ys [= <-]. destruct (Hsome rows eq_refl) as [-> Hl].
      rewrite length_map, rows_of_length. split; [reflexivity |].
      apply Forall_map.
      pose proof (rows_of_Forall _ _ _ _ Hrange Hl) as Hrows.
      revert Hrows. apply Forall_impl. intros row [H4 Hb].
      apply weighted_range4; assumption.
    + split; [split; [intros _; apply Hnone; reflexivity | reflexivity] |].
      discriminate.
Qed.



(** ** What the bit sequences mean *)

Tactic Notation "spell_bits" ident(b) integer(n) :=
  do n (destruct b as [| ? b]; [discriminate |]);
  destruct b; [| discriminate];
  repeat match goal with
         | H : Forall _ (_ :: _) |- _ => inversion H; clear H; subst
         end.

Ltac weigh_bits :=
  unfold bits2arr, Numpy.reshape2; decode_explicit;
  do 2 f_equal;
  cbn [Numpy.weighted Numpy.pack_byte fold_left value_lsb fold_right];
  rewrite !bit_of_bit by assumption;
  change (2 ^ 24) with 16777216; change (2 ^ 16) with 65536;
  change (2 ^ 8) with 256; lia.

(** X4. A bit vector of the dtype's width decodes to the sum of its bits
    weighted by powers of two, position [i] weighing [2^i]. *)
Theorem bits2arr_weighs_bits (dt : dtype) (b : list Z) :
  length b = bitwidth dt -> Forall is_bit b ->
  bits2arr b dt = Some [value_lsb b].
Proof.
  intros Hlen Hbits. destruct dt; cbn [bitwidth] in Hlen.
  - spell_bits b 8. weigh_bits.
  - spell_bits b 16. weigh_bits.
  - spell_bits b 32. weigh_bits.
Qed.

Lemma bits2arr_weighs_bits_witness :
  bits2arr [1; 0; 0; 1; 0; 0; 0; 1] uint8 = Some [1 + 8 + 128].
Proof.
  apply (bits2arr_weighs_bits uint8 [1; 0; 0; 1; 0; 0; 0; 1]).
  - reflexivity.
  - repeat constructor; unfold is_bit; lia.
Defined.

Section RippleFacts.

(** The [n] low bits of [v], least significant first. *)
Let lsb (n : nat) (v : Z) : list Z :=
  map (fun i => Z.b2z (Z.testbit v (Z.of_nat i))) (seq 0 n).

Lemma lsb_succ (n : nat) (v : Z) :
  lsb (S n) v = v mod 2 :: lsb n (v / 2).
Proof.
  unfold lsb. cbn [seq map]. f_equal.
  - apply Z.bit0_mod.
  - rewrite <- seq_shift, map_map. apply map_ext. intros i.
    f_equal. change (v / 2) with (v / 2 ^ 1).
    rewrite Z.div_pow2_bits by lia. f_equal. lia.
Qed.

Lemma ripple_lsb (n : nat) (a b c : Z) :
  ripple c (lsb n a) (lsb n b) = lsb n (a + b + c).
Proof.
  revert a b c; induction n as [| n IH]; intros a b c; [reflexivity |].
  rewrite !lsb_succ. cbn [ripple]. f_equal.
  - Z.div_mod_to_equations. lia.
  - rewrite IH. f_equal. Z.div_mod_to_equations. lia.
Qed.

Lemma lsb_mod (n : nat) (v : Z) : lsb n (v mod 2 ^ Z.of_nat n) = lsb n v.
Proof.
  unfold lsb. apply map_ext_in. intros i Hi. apply in_seq in Hi.
  rewrite Z.mod_pow2_bits_low by lia. reflexivity.
Qed.

Lemma encoded_sum_is_ripple (dt : dtype) (x0 x1 : Z) :
  arr2inbits dt [(x0 + x1) mod 2 ^ Z.of_nat (bitwidth dt)]
  = ripple 0 (arr2inbits dt [x0]) (arr2inbits dt [x1]).
Proof.
  rewrite !arr2inbits_lsb_first. fold (lsb (bitwidth dt) x0).
  fold (lsb (bitwidth dt) x1).
  fold (lsb (bitwidth dt) ((x0 + x1) mod 2 ^ Z.of_nat (bitwidth dt))).
  rewrite lsb_mod, ripple_lsb, Z.add_0_r. reflexivity.
Qed.

End RippleFacts.

(** X5. The encoding of a modular sum is the schoolbook binary sum of the
    encodings of the operands: bit [t] of the label is
    [(x0_t + x1_t + carry_t) mod 2], with [carry_0 = 0] and each carry
    passed on to the next position, the last one dropped.  This is the
    per-timestep function the labels [calc_y] produces ask the network to
    learn. *)
Theorem labels_are_ripple_carry_sums (dt : dtype) (x0 x1 : list Z)
  (y : list Z) (i : nat) (a b : Z) :
  SampleData.calc_y x0 x1 dt = Ok y ->
  nth_error x0 i = Some a -> nth_error x1 i = Some b ->
  exists s,
    nth_error y i = Some s
    /\ s = (a + b) mod 2 ^ Z.of_nat (bitwidth dt)
    /\ arr2inbits dt [s]
       = ripple 0 (arr2inbits dt [a]) (arr2inbits dt [b]).
Proof.
  intros Hy Ha Hb. apply calc_y_inv in Hy. destruct Hy as [Hlen ->].
  exists ((a + b) mod 2 ^ Z.of_nat (bitwidth dt)).
  split; [| split; [reflexivity | apply encoded_sum_is_ripple]].
  rewrite nth_error_map.
  assert (Hc : nth_error (combine x0 x1) i = Some (a, b)).
  { clear Hlen. revert x1 i Ha Hb.
    induction x0 as [| u x0 IH]; intros [| v x1] [| i] Ha Hb;
      try discriminate; cbn in *.
    - congruence.
    - apply IH; assumption. }
  rewrite Hc. reflexivity.
Qed.

Lemma labels_are_ripple_carry_sums_witness :
  SampleData.calc_y [200; 7] [100; 5] uint8 = Ok [44; 12]
  /\ arr2inbits uint8 [44]
     = ripple 0 (arr2inbits uint8 [200]) (arr2inbits uint8 [100]).
Proof.
  split; [reflexivity |].
  destruct (labels_are_ripple_carry_sums uint8 [200; 7] [100; 5] [44; 12]
              0 200 100 eq_refl eq_refl eq_refl) as (s & Hs & -> & Hr).
  exact Hr.
Defined.

(** ** Construction of the data set *)

Section InitFacts.
Context {R : Rng}.
Import SampleData.

Lemma reshape2_arr2inbits (dt : dtype) (xs : list Z) (n : nat) :
  length xs = n ->
  Numpy.reshape2 (arr2inbits dt xs) n (bitwidth dt)
  = Some (map (fun v => arr2inbits dt [v]) (rev xs)).
Proof.
  intros Hn. unfold Numpy.reshape2.
  rewrite arr2inbits_length, Hn, Nat.eqb_refl. f_equal.
  rewrite arr2inbits_flat, <- Hn, <- length_rev.
  apply rows_of_flat_map. intros v.
  rewrite arr2inbits_length. cbn [length]. lia.
Qed.

Lemma split_exact {A} (l : list A) (sections cols : nat) :
  (0 < sections)%nat -> length l = (sections * cols)%nat ->
  split l sections = Ok (Numpy.rows_of sections cols l).
Proof.
  intros Hs Hl. unfold split.
  destruct sections as [| k]; [lia |].
  rewrite Hl, Nat.mul_comm, Nat.Div0.mod_mul, Nat.div_mul by lia.
  reflexivity.
Qed.

(** The well-formed configurations: a known dtype and a positive sample
    count that is a multiple of the positive batch size. *)
Let well_formed (samples : nat) (name : string) (dt : dtype)
  (batch_size : nat) : Prop :=
  dtype_of_string name = Some dt
  /\ (0 < batch_size)%nat /\ (0 < samples)%nat
  /\ (samples mod batch_size = 0)%nat.

(** On a well-formed configuration everything up to the four calls of
    [print_batch_dims] goes through, and the attributes are the
    following. *)
Lemma init_eval (samples : nat) (name : string) (dt : dtype)
  (batch_size : nat) (fraction : Q) (s : rng_state) :
  well_formed samples name dt batch_size ->
  exists d0,
    init samples name batch_size fraction s
    = (_ <- print_batch_dims (x_train d0) ;;
       _ <- print_batch_dims (y_train d0) ;;
       _ <- print_batch_dims (x_validation d0) ;;
       _ <- print_batch_dims (y_validation d0) ;;
       Ok d0)
    /\ dtype_ d0 = dt
    /\ (x0_uint d0, x1_uint d0) = fst (gen_x samples dt s)
    /\ y_uint d0
       = map (fun p => (fst p + snd p) mod 2 ^ Z.of_nat (bitwidth dt))
           (combine (x0_uint d0) (x1_uint d0))
    /\ x0_samples_bits d0
       = map (fun v => arr2inbits dt [v]) (rev (x0_uint d0))
    /\ x1_samples_bits d0
       = map (fun v => arr2inbits dt [v]) (rev (x1_uint d0))
    /\ y_samples_bits_dims d0
       = map (fun v => arr2inbits dt [v]) (rev (y_uint d0))
    /\ x_samples_bits_dims d0
       = map (fun p => combine (fst p) (snd p))
           (combine (x0_samples_bits d0) (x1_samples_bits d0))
    /\ batch_count d0 = (samples / batch_size)%nat
    /\ x_all d0
       = Numpy.rows_of (batch_count d0) batch_size (x_samples_bits_dims d0)
    /\ y_all d0
       = Numpy.rows_of (batch_count d0) batch_size (y_samples_bits_dims d0)
    /\ x_train d0
       = train_split (train_batches_of fraction (batch_count d0)) (x_all d0)
    /\ y_train d0
       = train_split (train_batches_of fraction (batch_count d0)) (y_all d0)
    /\ x_validation d0
       = validation_split (train_batches_of fraction (batch_count d0))
           (x_all d0)
    /\ y_validation d0
       = validation_split (train_batches_of fraction (batch_count d0))
           (y_all d0)
    /\ length (x0_uint d0) = samples /\ length (x1_uint d0) = samples.
Proof.
  intros (Hdt & Hbs & Hpos & Hmod).
  unfold init. rewrite Hdt. cbn [of_option bind].
  destruct batch_size as [| bs']; [lia |].
  rewrite Hmod. cbn [Nat.eqb bind].
  set (bs := S bs') in *.
  pose proof (gen_x_spec samples dt s) as [[Hl0 Hl1] _].
  destruct (gen_x samples dt s) as [[x0 x1] s'].
  cbn [fst snd] in Hl0, Hl1.
  rewrite calc_y_spec by congruence. cbn [bind].
  set (y := map _ (combine x0 x1)).
  assert (Hly : length y = samples).
  { subst y. rewrite length_map, length_combine. lia. }
  rewrite !reshape2_arr2inbits by assumption. cbn [of_option bind].
  set (enc := fun v => arr2inbits dt [v]).
  set (x_sbd := map (fun p => combine (fst p) (snd p))
                  (combine (map enc (rev x0)) (map enc (rev x1)))).
  assert (Hsamples : samples = (samples / bs * bs)%nat).
  { pose proof (Nat.div_mod_eq samples bs). lia. }
  assert (Hbc : (0 < samples / bs)%nat).
  { destruct (samples / bs)%nat; lia. }
  assert (Hlx : length x_sbd = (samples / bs * bs)%nat).
  { subst x_sbd.
    rewrite length_map, length_combine, !length_map, !length_rev. lia. }
  assert (Hlyb : length (map enc (rev y)) = (samples / bs * bs)%nat).
  { rewrite length_map, length_rev. lia. }
  rewrite (split_exact x_sbd (samples / bs) bs Hbc Hlx).
  rewrite (split_exact _ (samples / bs) bs Hbc Hlyb).
  cbn [bind].
  set (bc := (samples / bs)%nat) in *.
  set (tb := train_batches_of fraction bc).
  set (xa := Numpy.rows_of bc bs x_sbd).
  set (ya := Numpy.rows_of bc bs (map enc (rev y))).
  exists {| dtype_ := dt; bitwidth_ := bitwidth dt;
            x0_uint := x0; x1_uint := x1; y_uint := y;
            x0_samples_bits := map enc (rev x0);
            x1_samples_bits := map enc (rev x1);
            x_samples_bits_dims := x_sbd;
            y_samples_bits_dims := map enc (rev y);
            batch_count := bc; x_all := xa; y_all := ya;
            x_train := train_split tb xa; y_train := train_split tb ya;
            x_validation := validation_split tb xa;
            y_validation := validation_split tb ya |}.
  split; [reflexivity |].
  cbn [dtype_ x0_uint x1_uint y_uint x0_samples_bits x1_samples_bits
       y_samples_bits_dims x_samples_bits_dims batch_count x_all y_all
       x_train y_train x_validation y_validation fst].
  repeat split; try reflexivity; assumption.
Qed.

(** A constructed data set comes from a well-formed configuration. *)
Lemma init_ok_well_formed (samples : nat) (name : string)
  (batch_size : nat) (fraction : Q) (s : rng_state) (d : t) :
  init samples name batch_size fraction s = Ok d ->
  well_formed samples name (dtype_ d) batch_size.
Proof.
  intros Hinit.
  destruct (init_inv _ _ _ _ _ _ Hinit)
    as (Hdt & _ & _ & Hbc & Hxa & _ & (Hxt & _) & Hne & _).
  cbv zeta in Hxt.
  assert (Hnz : batch_count d <> 0%nat).
  { intros Hz. apply Hne. rewrite Hxt.
    destruct (x_all d); [| rewrite Hz in Hxa; discriminate].
    unfold train_split, Py.slice_to. apply firstn_nil. }
  unfold init in Hinit. rewrite Hdt in Hinit. cbn [of_option bind] in Hinit.
  destruct batch_size as [| bs']; [discriminate |].
  destruct (samples mod S bs' =? 0)%nat eqn:Hmod; [| discriminate].
  apply Nat.eqb_eq in Hmod.
  repeat split; try assumption; try lia.
  destruct samples; [| lia].
  rewrite Hbc in Hnz. cbn in Hnz. congruence.
Qed.

End InitFacts.

Section InitOutcomes.
Context {R : Rng}.
Import SampleData.

Lemma print_batch_dims_ok {A} (var : list A) :
  var <> [] -> print_batch_dims var = Ok tt.
Proof. destruct var; [congruence | reflexivity]. Qed.

Lemma nonempty_of_length {A} (l : list A) :
  (0 < length l)%nat -> l <> [].
Proof. destruct l; cbn [length]; [lia | discriminate]. Qed.



Lemma concat_rows_of {A} (rows cols : nat) (l : list A) :
  length l = (rows * cols)%nat ->
  concat (Numpy.rows_of rows cols l) = l.
Proof.
  revert l; induction rows as [| r IH]; intros l Hl;
    cbn [Numpy.rows_of concat].
  - destruct l; [reflexivity | discriminate].
  - rewrite IH by (rewrite length_skipn; lia). apply firstn_skipn.
Qed.

Lemma rev_combine {A B} (a : list A) (b : list B) :
  length a = length b -> rev (combine a b) = combine (rev a) (rev b).
Proof.
  revert b; induction a as [| x a IH]; intros [| y b] Hl;
    try discriminate; [reflexivity |].
  cbn [combine rev]. rewrite IH by (cbn [length] in Hl; lia).
  assert (Hr : length (rev a) = length (rev b))
    by (rewrite !length_rev; cbn [length] in Hl; lia).
  clear - Hr. revert Hr. generalize (rev a) (rev b). clear.
  induction l as [| u l IH]; intros [| v l0] Hl; try discriminate;
    [reflexivity |].
  cbn [combine app]. f_equal. apply IH. cbn [length] in Hl. lia.
Qed.

Lemma map_fst_combine {A B} (a : list A) (b : list B) :
  length a = length b ->
  map fst (combine a b) = a /\ map snd (combine a b) = b.
Proof.
  revert b; induction a as [| x a IH]; intros [| y b] Hl;
    try discriminate; [auto |].
  cbn [combine map fst snd].
  destruct (IH b) as [-> ->]; [cbn [length] in Hl; lia | auto].
Qed.

(** The attributes of a constructed data set. *)
Lemma init_ok_eval (samples : nat) (name : string) (batch_size : nat)
  (fraction : Q) (s : rng_state) (d : t) :
  init samples name batch_size fraction s = Ok d ->
  let dt := dtype_ d in
  let enc := fun v => arr2inbits dt [v] in
  (0 < batch_size)%nat /\ (0 < samples)%nat
  /\ (samples mod batch_size = 0)%nat
  /\ length (x0_uint d) = samples /\ length (x1_uint d) = samples
  /\ y_uint d
     = map (fun p => (fst p + snd p) mod 2 ^ Z.of_nat (bitwidth dt))
         (combine (x0_uint d) (x1_uint d))
  /\ x_samples_bits_dims d
     = map (fun p => combine (enc (fst p)) (enc (snd p)))
         (rev (combine (x0_uint d) (x1_uint d)))
  /\ y_samples_bits_dims d
     = map (fun p => enc ((fst p + snd p) mod 2 ^ Z.of_nat (bitwidth dt)))
         (rev (combine (x0_uint d) (x1_uint d)))
  /\ batch_count d = (samples / batch_size)%nat
  /\ x_all d
     = Numpy.rows_of (batch_count d) batch_size (x_samples_bits_dims d)
  /\ y_all d
     = Numpy.rows_of (batch_count d) batch_size (y_samples_bits_dims d).
Proof.
  intros Hinit. cbv zeta.
  pose proof (init_ok_well_formed _ _ _ _ _ _ Hinit)
    as (Hdt & Hbs & Hpos & Hmod).
  destruct (init_eval samples name (dtype_ d) batch_size fraction s
              (conj Hdt (conj Hbs (conj Hpos Hmod))))
    as (d0 & Heq & Hd0 & _ & Hy & Hx0 & Hx1 & Hyb & Hxb & Hbc & Hxa & Hya
        & _ & _ & _ & _ & Hl0 & Hl1).
  rewrite Heq in Hinit.
  repeat match type of Hinit with
         | bind (print_batch_dims ?v) _ = _ =>
             destruct (print_batch_dims v); cbn [bind] in Hinit;
             [| discriminate]
         end.
  injection Hinit as <-.
  split; [exact Hbs |]. split; [exact Hpos |]. split; [exact Hmod |].
  split; [exact Hl0 |]. split; [exact Hl1 |].
  clear Hd0. split; [exact Hy |].
  split; [| split; [| auto]].
  - rewrite Hxb, Hx0, Hx1, rev_combine by congruence.
    generalize (rev (x0_uint d0)) (rev (x1_uint d0)).
    intros u. induction u as [| e0 u IH]; intros [| e1 v];
      try reflexivity.
    cbn [combine map fst snd]. f_equal. apply IH.
  - rewrite Hyb, Hy, <- map_rev, map_map. reflexivity.
Qed.

End InitOutcomes.

Section InitTheorems.
Context {R : Rng}.
Import SampleData.


End InitTheorems.

(** X6. Configuration errors stop the constructor before any batch is
    built: a dtype name other than the three supported ones raises
    [ValueError] whatever the other arguments; with a supported dtype, a
    batch size of 0 raises [ZeroDivisionError] (from [samples % 0]), a
    sample count that is not a multiple of the batch size raises
    [ValueError], and a sample count of 0 passes both checks and then
    raises [ZeroDivisionError] in [np.split] with 0 sections. *)
Theorem init_rejects_bad_configuration {R : Rng} (samples : nat)
  (name : string) (batch_size : nat) (fraction : Q) (s : rng_state) :
  (name <> "uint8"%string -> name <> "uint16"%string ->
   name <> "uint32"%string ->
   SampleData.init samples name batch_size fraction s = Raise ValueError)
  /\ (forall dt,
         SampleData.dtype_of_string name = Some dt ->
         (batch_size = 0%nat ->
          SampleData.init samples name batch_size fraction s
          = Raise ZeroDivisionError)
         /\ ((0 < batch_size)%nat ->
             (samples mod batch_size <> 0)%nat ->
             SampleData.init samples name batch_size fraction s
             = Raise ValueError)
         /\ ((0 < batch_size)%nat -> samples = 0%nat ->
             SampleData.init samples name batch_size fraction s
             = Raise ZeroDivisionError)).
Proof.
  split.
  - intros H8 H16 H32. unfold SampleData.init, SampleData.dtype_of_string.
    apply String.eqb_neq in H8, H16, H32. rewrite H8, H16, H32.
    reflexivity.
  - intros dt Hdt. unfold SampleData.init. rewrite Hdt.
    cbn [of_option bind]. split; [| split].
    + intros ->. reflexivity.
    + intros Hbs Hmod. destruct batch_size as [| bs']; [lia |].
      apply Nat.eqb_neq in Hmod. rewrite Hmod. reflexivity.
    + intros Hbs ->. destruct batch_size as [| bs']; [lia |].
      rewrite Nat.Div0.mod_0_l, Nat.Div0.div_0_l.
      cbn [Nat.eqb bind SampleData.gen_x SampleData.x_init
           SampleData.random_choice Numpy.astype map].
      destruct dt; reflexivity.
Qed.

Lemma init_rejects_bad_configuration_witness :
  @SampleData.init replay_rng 8 "int8" 2 (1 # 2) [] = Raise ValueError
  /\ @SampleData.init replay_rng 8 "uint8" 0 (1 # 2) []
     = Raise ZeroDivisionError
  /\ @SampleData.init replay_rng 9 "uint8" 2 (1 # 2) [] = Raise ValueError
  /\ @SampleData.init replay_rng 0 "uint8" 2 (1 # 2) []
     = Raise ZeroDivisionError.
Proof.
  split; [| split; [| split]].
  - apply (proj1 (@init_rejects_bad_configuration replay_rng 8 "int8" 2
                    (1 # 2) [])); discriminate.
  - exact (proj1 (proj2 (@init_rejects_bad_configuration replay_rng 8
                           "uint8" 0 (1 # 2) []) uint8 eq_refl) eq_refl).
  - apply (proj1 (proj2 (proj2 (@init_rejects_bad_configuration replay_rng
                                  9 "uint8" 2 (1 # 2) []) uint8 eq_refl)));
      [lia | discriminate].
  - apply (proj2 (proj2 (proj2 (@init_rejects_bad_configuration replay_rng
                                  0 "uint8" 2 (1 # 2) []) uint8 eq_refl)));
      [lia | reflexivity].
Defined.







Lemma Forall2_map_same {A B C} (P : B -> C -> Prop) (f : A -> B)
  (g : A -> C) (l : list A) :
  (forall a, P (f a) (g a)) -> Forall2 P (map f l) (map g l).
Proof.
  intros H; induction l as [| a l IH]; cbn [map]; constructor; auto.
Qed.

(** X10. In a constructed data set the rows of inputs and the rows of
    labels describe the same samples, in the reverse of the order in which
    the operands were drawn: row [i] of the inputs zips the encodings of
    the operand pair drawn at position [samples - 1 - i], and row [i] of
    the labels encodes the modular sum of that same pair.  Hence every
    label row is the ripple-carry sum of the two bit columns of its input
    row.  The batches are consecutive runs of these rows. *)
Theorem samples_and_labels_are_aligned {R : Rng} (samples : nat)
  (name : string) (batch_size : nat) (fraction : Q) (s : rng_state)
  (d : SampleData.t) :
  SampleData.init samples name batch_size fraction s = Ok d ->
  let dt := SampleData.dtype_ d in
  let enc := fun v => arr2inbits dt [v] in
  let drawn := combine (SampleData.x0_uint d) (SampleData.x1_uint d) in
  length drawn = samples
  /\ SampleData.x_samples_bits_dims d
     = map (fun p => combine (enc (fst p)) (enc (snd p))) (rev drawn)
  /\ SampleData.y_samples_bits_dims d
     = map (fun p => enc ((fst p + snd p) mod 2 ^ Z.of_nat (bitwidth dt)))
         (rev drawn)
  /\ Forall2 (fun xrow yrow =>
                yrow = ripple 0 (map fst xrow) (map snd xrow))
       (SampleData.x_samples_bits_dims d)
       (SampleData.y_samples_bits_dims d)
  /\ concat (SampleData.x_all d) = SampleData.x_samples_bits_dims d
  /\ concat (SampleData.y_all d) = SampleData.y_samples_bits_dims d.
Proof.
  intros Hinit. cbv zeta.
  destruct (init_ok_eval _ _ _ _ _ _ Hinit)
    as (Hbs & Hpos & Hmod & Hl0 & Hl1 & Hy & Hx & Hyb & Hbc & Hxa & Hya).
  cbv zeta in Hx, Hyb, Hy.
  assert (Hld : length (combine (SampleData.x0_uint d)
                          (SampleData.x1_uint d)) = samples)
    by (rewrite length_combine; lia).
  assert (Hsamples : samples
                     = (SampleData.batch_count d * batch_size)%nat).
  { rewrite Hbc. pose proof (Nat.div_mod_eq samples batch_size). lia. }
  split; [exact Hld |]. split; [exact Hx |]. split; [exact Hyb |].
  split; [| split].
  - rewrite Hx, Hyb. apply Forall2_map_same. intros [a b].
    cbn [fst snd].
    destruct (map_fst_combine
                (arr2inbits (SampleData.dtype_ d) [a])
                (arr2inbits (SampleData.dtype_ d) [b])) as [-> ->].
    + rewrite !arr2inbits_length. reflexivity.
    + apply encoded_sum_is_ripple.
  - rewrite Hxa. apply concat_rows_of.
    rewrite Hx, length_map, length_rev. lia.
  - rewrite Hya. apply concat_rows_of.
    rewrite Hyb, length_map, length_rev. lia.
Qed.

Lemma samples_and_labels_are_aligned_witness :
  exists d,
    @SampleData.init replay_rng 8 "uint8" 2 (1 # 2)
      [200; 1; 2; 3; 4; 5; 6; 7; 100; 254; 253; 9; 8; 7; 6; 5] = Ok d
    /\ Forall2 (fun xrow yrow =>
                  yrow = ripple 0 (map fst xrow) (map snd xrow))
         (SampleData.x_samples_bits_dims d)
         (SampleData.y_samples_bits_dims d).
Proof.
  assert (Hok : match @SampleData.init replay_rng 8 "uint8" 2 (1 # 2)
                 [200; 1; 2; 3; 4; 5; 6; 7; 100; 254; 253; 9; 8; 7; 6; 5]
                 with Ok _ => true | Raise _ => false end = true)
    by (vm_compute; reflexivity).
  destruct (@SampleData.init replay_rng 8 "uint8" 2 (1 # 2)
              [200; 1; 2; 3; 4; 5; 6; 7; 100; 254; 253; 9; 8; 7; 6; 5])
    as [d | e] eqn:E; [| discriminate Hok].
  exists d. split; [reflexivity |].
  exact (proj1 (proj2 (proj2 (proj2
    (@samples_and_labels_are_aligned replay_rng _ _ _ _ _ d E))))).
Defined.

(** ** More on the recurrent cell *)

Section CellFacts.
Context {T : TensorOps}.
Import RnnCell.

Lemma dynamic_rnn_app (cell : tensor -> tensor -> tensor) (state : tensor)
  (xs ys : list tensor) :
  exists state',
    dynamic_rnn cell state (xs ++ ys)
    = dynamic_rnn cell state xs ++ dynamic_rnn cell state' ys.
Proof.
  revert state; induction xs as [| x xs IH]; intros state.
  - exists state. reflexivity.
  - destruct (IH (cell x state)) as [state' Hs]. exists state'.
    cbn [app dynamic_rnn]. rewrite Hs. reflexivity.
Qed.

Lemma logits_series_app (rnn : t) (initial_state : tensor)
  (xs ys : list tensor) :
  exists later,
    logits_series rnn initial_state (xs ++ ys)
    = logits_series rnn initial_state xs ++ later.
Proof.
  unfold logits_series. destruct (realization_ rnn) as [| cell].
  - unfold unroll. rewrite fold_left_app.
    destruct (fold_step_states (weights_ rnn) ys
                (fold_left (step (weights_ rnn)) xs
                   {| h_0 := initial_state; _h := [];
                      _logits_series := [] |})) as [_ Hl].
    cbv zeta in Hl. rewrite Hl. eexists. reflexivity.
  - destruct (dynamic_rnn_app cell initial_state xs ys) as [state' Hs].
    rewrite Hs, map_app. eexists. reflexivity.
Qed.

End CellFacts.

(** X11. The cell is causal in both realizations: the predictions for the
    first timesteps of a sequence do not depend on the inputs that come
    after them.  Since timesteps run from the least significant bit
    upwards, a predicted sum bit depends only on the operand bits at its
    own and at lower positions. *)
Theorem predictions_do_not_depend_on_later_inputs {T : TensorOps}
  (rnn : RnnCell.t) (initial_state : tensor) (xs ys : list tensor) :
  firstn (length xs)
    (RnnCell.predictions_series rnn initial_state (xs ++ ys))
  = RnnCell.predictions_series rnn initial_state xs.
Proof.
  pose proof (predictions_series_length rnn initial_state xs) as Hlen.
  unfold RnnCell.predictions_series in *.
  destruct (logits_series_app rnn initial_state xs ys) as [later Hl].
  rewrite Hl, map_app, firstn_app, <- Hlen, Nat.sub_diag, firstn_all.
  cbn [firstn]. apply app_nil_r.
Qed.

(** X12. The two branches of the constructor build the same graph up to
    the cell: with the same output layer, the manual unroll yields exactly
    the predictions the library branch yields when its cell maps an input
    [x] and a state [h] to [relu ((x W_ih + b_h) + h W_hh)]. *)
Theorem manual_unroll_is_scan_of_its_step {T : TensorOps}
  (bitwidth : nat) (W : RnnCell.weights) (initial_state : tensor)
  (xs : list tensor) :
  RnnCell.predictions_series
    {| RnnCell.bitwidth_ := bitwidth; RnnCell.weights_ := W;
       RnnCell.realization_ := RnnCell.Manual |} initial_state xs
  = RnnCell.predictions_series
      {| RnnCell.bitwidth_ := bitwidth; RnnCell.weights_ := W;
         RnnCell.realization_ :=
           RnnCell.TfRnnApi
             (fun x h =>
                relu (add (add (matmul x (RnnCell.w_i_h W))
                             (RnnCell.b_h W))
                        (matmul h (RnnCell.w_h_h W)))) |}
      initial_state xs.
Proof.
  unfold RnnCell.predictions_series. f_equal.
  exact (manual_logits_as_dynamic_rnn
           {| RnnCell.bitwidth_ := bitwidth; RnnCell.weights_ := W;
              RnnCell.realization_ := RnnCell.Manual |}
           initial_state xs eq_refl).
Qed.

(** ** More on the calculator *)

Section RoundFacts.
Context {T : TensorOps}.
Import RNNCalc.

Lemma width_32_is_uint32 (dt : dtype) : bitwidth dt = 32%nat -> dt = uint32.
Proof. destruct dt; (discriminate || reflexivity). Qed.

(** A 32-bit vector decodes to one integer below [2^32]. *)
Lemma bits2arr_32_range (l : list Z) :
  length l = 32%nat ->
  exists y, bits2arr l uint32 = Some [y] /\ 0 <= y < 2 ^ 32.
Proof.
  intros Hl. destruct (bits2arr_32 l Hl) as [y Hy]. exists y.
  split; [exact Hy |].
  destruct (proj2 (bits2arr_outcome uint32 l) [y] Hy) as [_ Hr].
  inversion Hr as [| ? ? Hin _]; subst.
  unfold in_range in Hin. cbn [bitwidth] in Hin.
  change (Z.of_nat 32) with 32 in Hin. exact Hin.
Qed.

(** Everything a completed round fixes. *)
Lemma calculate_ok_full (self : t) (x0 x1 : Z) (evs : list event) :
  calculate self x0 x1 = (evs, Ok tt) ->
  dtype_ self = uint32
  /\ RnnCell.bitwidth_ (rnn self) = 32%nat
  /\ exists y cleaned,
       bits2arr cleaned uint32 = Some [y] /\ 0 <= y < 2 ^ 32
       /\ evs = [EvPrint "x0 int val: {}" [VInt x0];
                 EvPrint "x0 bin val: {}" [VBits (arr2inbits uint32 [x0])];
                 EvPrint "x0 int val: {}" [VInt x1];
                 EvPrint "x0 bin val: {}" [VBits (arr2inbits uint32 [x1])];
                 EvSessRun (combine (arr2inbits uint32 [x0])
                              (arr2inbits uint32 [x1]));
                 EvPrint "y  int val: {} and correct answer is {}"
                   [VInt y; VInt (x0 + x1)];
                 EvPrint "y  bin val: {}" [VBits cleaned]].
Proof.
  intros Hc.
  pose proof (fed_sequence_length (dtype_ self) x0 x1) as Hx.
  unfold calculate in Hc. cbv zeta in Hc.
  set (x := combine _ _) in *.
  destruct (length x =? RnnCell.bitwidth_ (rnn self))%nat eqn:Hfeed;
    cbn [negb] in Hc; [| discriminate].
  apply Nat.eqb_eq in Hfeed.
  unfold Numpy.reshape1 in Hc.
  destruct (length (map around _) =? 32)%nat eqn:Hshape; [| discriminate].
  apply Nat.eqb_eq in Hshape.
  rewrite length_map, predictions_series_length, length_map in Hshape.
  assert (Hdt : dtype_ self = uint32)
    by (apply width_32_is_uint32; congruence).
  split; [exact Hdt |]. split; [congruence |].
  set (cleaned := Numpy.astype _ _) in Hc.
  assert (Hlc : length cleaned = 32%nat).
  { subst cleaned. unfold Numpy.astype.
    rewrite !length_map, predictions_series_length, length_map.
    exact Hshape. }
  clearbody cleaned. subst x. rewrite Hdt in *.
  destruct (bits2arr_32_range cleaned Hlc) as (y & Hy & Hr).
  rewrite Hy in Hc. apply (f_equal fst) in Hc. cbn [fst app] in Hc.
  exists y, cleaned. auto.
Qed.



End RoundFacts.

(** X13. Whatever the model predicts, the number a completed round prints
    as the prediction lies in [[0, 2^32)], while the number printed as the
    correct answer is [x0 + x1]: whenever the operands overflow the width
    the two printed numbers differ, and the round only ever completes at
    dtype [uint32] with a model of 32 timesteps. *)
Theorem prediction_differs_on_overflow {T : TensorOps} (self : RNNCalc.t)
  (x0 x1 : Z) (evs : list event) (y : Z) (shown_sum : value) :
  RNNCalc.calculate self x0 x1 = (evs, Ok tt) ->
  In (EvPrint "y  int val: {} and correct answer is {}"
        [VInt y; shown_sum]) evs ->
  RNNCalc.dtype_ self = uint32
  /\ 0 <= y < 2 ^ 32
  /\ shown_sum = VInt (x0 + x1)
  /\ (2 ^ 32 <= x0 + x1 -> y <> x0 + x1).
Proof.
  intros Hc Hin.
  destruct (calculate_ok_full self x0 x1 evs Hc)
    as (Hdt & _ & y' & cleaned & _ & Hr & ->).
  cbn [In] in Hin.
  repeat (destruct Hin as [Hin | Hin]; [try discriminate Hin |]);
    [| contradiction].
  injection Hin as <- <-.
  repeat split; try assumption; try apply Hr. lia.
Qed.


Section MoreCalcRuns.
Local Open Scope string_scope.

Lemma prediction_differs_on_overflow_witness :
  exists evs,
    @RNNCalc.calculate IntTensor.ops (IntTensor.calc uint32) 4294967295 1
    = (evs, Ok tt)
    /\ In (EvPrint "y  int val: {} and correct answer is {}"
             [VInt 0; VInt 4294967296]) evs
    /\ 0 <> 4294967295 + 1.
Proof.
  eexists. split; [exact (proj1 overflow_round_shows_plain_sum) |].
  assert (Hin : In (EvPrint "y  int val: {} and correct answer is {}"
                      [VInt 0; VInt 4294967296])
                  [EvPrint "x0 int val: {}" [VInt 4294967295];
                   EvPrint "x0 bin val: {}" [VBits (repeat 1 32)];
                   EvPrint "x0 int val: {}" [VInt 1];
                   EvPrint "x0 bin val: {}" [VBits (1 :: repeat 0 31)];
                   EvSessRun (combine (repeat 1 32) (1 :: repeat 0 31));
                   EvPrint "y  int val: {} and correct answer is {}"
                     [VInt 0; VInt 4294967296];
                   EvPrint "y  bin val: {}" [VBits (repeat 0 32)]])
    by (do 5 right; left; reflexivity).
  split; [exact Hin |].
  destruct (@prediction_differs_on_overflow IntTensor.ops
              (IntTensor.calc uint32) 4294967295 1 _ 0 (VInt 4294967296)
              (proj1 overflow_round_shows_plain_sum) Hin)
    as (_ & _ & _ & Hne).
  apply Hne. vm_compute. discriminate.
Defined.


End MoreCalcRuns.



Section NarrowRuns.
Local Open Scope string_scope.


End NarrowRuns.
